(** * A shallow embedding of the INIT package manager ([src/initpkg.py])

    The development models the class [PackageManager]: its configuration
    ([self.config], a Python dict loaded from [packages.json]), the index
    cache [cache/index.json], the package directories under [PACKAGES_DIR]
    and the network, together with the operations [load_config],
    [save_config], [fetch_package_index], [download_package], [install],
    [_install_single], [create_package], [install_local], [list_installed],
    [list_available], [search], [uninstall], [info], [update_index] and the
    command dispatch of [main].

    Terminal animations (banner, spinner, progress bars) are presentation
    only and are left out; every other [print] of these operations is kept
    as an [event] of the output log. *)

From Stdlib Require Import String Ascii List Bool ZArith Lia.
Import ListNotations.
Open Scope string_scope.
Set Warnings "-register-all".

(** ** JSON values and Python dictionaries *)

(** A JSON value as [json.load] returns it.  Numbers are integers
    (fractional numbers play no part in the code). *)
Inductive json : Type :=
| JNull
| JBool (b : bool)
| JNum (z : Z)
| JStr (s : string)
| JArr (l : list json)
| JObj (o : list (string * json)).

(** Keys of a Python dict built by [dict.update]: besides strings,
    [dict.update] with a sequence of pairs accepts the hashable JSON
    scalars [int], [bool] and [None]. *)
Inductive pykey : Type :=
| KStr (s : string)
| KInt (z : Z)
| KBool (b : bool)
| KNone.

(** Python compares [True == 1] and [False == 0], so those keys collide. *)
Definition key_num (k : pykey) : option Z :=
  match k with
  | KInt z => Some z
  | KBool b => Some (if b then 1%Z else 0%Z)
  | _ => None
  end.

Definition pykey_eqb (k1 k2 : pykey) : bool :=
  match k1, k2 with
  | KStr a, KStr b => String.eqb a b
  | KNone, KNone => true
  | _, _ =>
      match key_num k1, key_num k2 with
      | Some a, Some b => Z.eqb a b
      | _, _ => false
      end
  end.

(** A Python dict, in insertion order. *)
Definition pydict := list (pykey * json).

Fixpoint dict_get (d : pydict) (k : pykey) : option json :=
  match d with
  | [] => None
  | (k', v) :: d' => if pykey_eqb k k' then Some v else dict_get d' k
  end.

(** [d[k] = v]: an existing equal key keeps its place (and its original key
    object) and gets the new value; a new key is appended. *)
Fixpoint dict_set (k : pykey) (v : json) (d : pydict) : pydict :=
  match d with
  | [] => [(k, v)]
  | (k', v') :: d' =>
      if pykey_eqb k k' then (k', v) :: d' else (k', v') :: dict_set k v d'
  end.

(** The same operations on a JSON object (string keys, unique). *)
Fixpoint obj_get (o : list (string * json)) (k : string) : option json :=
  match o with
  | [] => None
  | (k', v) :: o' => if String.eqb k k' then Some v else obj_get o' k
  end.

Fixpoint obj_set (k : string) (v : json) (o : list (string * json))
  : list (string * json) :=
  match o with
  | [] => [(k, v)]
  | (k', v') :: o' =>
      if String.eqb k k' then (k', v) :: o' else (k', v') :: obj_set k v o'
  end.

(** [del o[k]]; the keys of a JSON object are unique, so removing every
    entry with key [k] removes the one entry. *)
Definition obj_del (k : string) (o : list (string * json)) : list (string * json) :=
  filter (fun kv => negb (String.eqb k (fst kv))) o.

Definition obj_keys (o : list (string * json)) : list string := map fst o.

(** *** [dict.update(x)] *)

(** The outcome of a call that may raise: the dict as it is when the call
    returns, or as it was left when the exception was raised. *)
Inductive upd_res : Type :=
| UOk (d : pydict)
| URaise (d : pydict).

Definition char_str (c : ascii) : string := String c EmptyString.

(** One element of the sequence given to [dict.update]: it must be an
    iterable of length two whose first item is hashable. *)
Definition pair_of_elem (e : json) : option (pykey * json) :=
  match e with
  | JArr [k; v] =>
      match k with
      | JStr s => Some (KStr s, v)
      | JNum z => Some (KInt z, v)
      | JBool b => Some (KBool b, v)
      | JNull => Some (KNone, v)
      | _ => None                       (* unhashable list or dict key *)
      end
  | JStr (String a (String b EmptyString)) => Some (KStr (char_str a), JStr (char_str b))
  | JObj [(k1, _); (k2, _)] => Some (KStr k1, JStr k2)
  | _ => None                           (* wrong length, or not iterable *)
  end.

(** CPython inserts the pairs one at a time and keeps those already
    inserted when a later element raises. *)
Fixpoint update_seq (d : pydict) (l : list json) : upd_res :=
  match l with
  | [] => UOk d
  | e :: l' =>
      match pair_of_elem e with
      | Some (k, v) => update_seq (dict_set k v d) l'
      | None => URaise d
      end
  end.

Definition dict_update (d : pydict) (x : json) : upd_res :=
  match x with
  | JObj o => UOk (fold_left (fun d kv => dict_set (KStr (fst kv)) (snd kv) d) o d)
  | JArr l => update_seq d l
  | JStr s => update_seq d (map (fun c => JStr (char_str c)) (list_ascii_of_string s))
  | _ => URaise d                       (* int, bool, None: not iterable *)
  end.

(** ** Configuration: [load_config] *)

Definition GITHUB_REPO : string :=
  "https://raw.githubusercontent.com/gopu-inc/initlang-packages/main".

Definition default_config : pydict :=
  [(KStr "repository", JStr GITHUB_REPO); (KStr "installed_packages", JObj [])].

(** The file [packages.json] as [load_config] sees it: absent ([None]),
    present but unreadable or not valid JSON ([Some None]), or holding a
    JSON value. *)
Definition config_source := option (option json).

(** [load_config]: start from the defaults, then [self.config.update(json.load(f))]
    inside a bare [try/except: pass]. *)
Definition load_config (file : config_source) : pydict :=
  match file with
  | None => default_config
  | Some None => default_config
  | Some (Some v) =>
      match dict_update default_config v with
      | UOk d => d
      | URaise d => d
      end
  end.

(** ** Program state *)

(** The contents of a file under [PACKAGES_DIR/<name>]: text, or the JSON
    value [json.dump] wrote. *)
Inductive fcontent : Type :=
| FText (s : string)
| FJson (j : json).

(** A package directory: its files by name. *)
Definition pkgdir := list (string * fcontent).

(** What the operations print (animations left out). *)
Inductive event : Type :=
| EvConnecting                        (* "Connexion au repository GitHub" *)
| EvIndexUpdated (n : nat)            (* "Index mis à jour (n paquets ...)" *)
| EvConnError                         (* "Erreur de connexion: e" *)
| EvUsingLocalCache                   (* "Utilisation du cache local..." *)
| EvInstalling (name : string) (version : json)
| EvDownloadError (name : string)     (* "Erreur téléchargement: e" *)
| EvInstallFailure (name : string)    (* "Échec installation: e" *)
| EvInstalled (name : string)
| EvCannotConnect                     (* "Impossible de se connecter ..." *)
| EvCheckConnection                   (* "Vérifiez votre connexion internet" *)
| EvProgress (i total : nat)          (* "Paquet i/total" *)
| EvAlreadyInstalled (name : string)
| EvNotFound (name : string)
| EvAvailable (names : list string)   (* "Paquets disponibles: a, b, ..." *)
| EvInstallingDeps (deps : list string)
| EvFailedToInstall (name : string)   (* "Échec de l'installation de name" *)
| EvNoMainInit (name : string)
| EvInstallingLocal (name : string)
| EvInstalledLocal (name : string)
| EvNotInstalled (name : string)
| EvUninstalling (name : string)
| EvUninstalled (name : string)
| EvCreated (name : string)           (* "Paquet 'name' créé dans dir" *)
| EvNoPackagesInstalled               (* "Aucun paquet installé" *)
| EvInstalledHeader                   (* "Paquets installés:" *)
| EvListedInstalled (name : string) (version source : json)
| EvCannotFetchAvailable              (* "Impossible de récupérer les paquets disponibles" *)
| EvAvailableHeader                   (* "Paquets disponibles:" *)
| EvListedAvailable (installed : bool) (name : string) (version description : json)
| EvNoResults (query : string)        (* "Aucun paquet trouvé pour 'query'" *)
| EvResultsHeader (query : string)    (* "Résultats pour 'query':" *)
| EvPackageNotFound (name : string)   (* "Paquet 'name' non trouvé" *)
| EvInfoName (name : string)
| EvInfoVersion (v : json)
| EvInfoDescription (d : json)
| EvInfoAuthor (a : json)
| EvInfoLicense (l : json)
| EvInfoRepository (r : json)
| EvInfoDependencies (deps : list string)
| EvStatusInstalled
| EvStatusNotInstalled
| EvHelp                              (* show_help() *)
| EvMissingArgument (command : string) (* "Erreur: Spécifiez ..." *)
| EvUnknownCommand (command : string)
| EvError.                            (* "Erreur: e", the handler of main *)

Record state : Type := mkState {
  config : pydict;                      (* self.config *)
  config_file : option pydict;          (* the dict last written to packages.json *)
  cache_file : option (option json);    (* cache/index.json: absent, unparsable, or a value *)
  pkg_dirs : list (string * pkgdir);    (* the directories under PACKAGES_DIR *)
  out : list event }.

Definition set_config (c : pydict) (s : state) : state :=
  mkState c (config_file s) (cache_file s) (pkg_dirs s) (out s).
Definition set_config_file (f : option pydict) (s : state) : state :=
  mkState (config s) f (cache_file s) (pkg_dirs s) (out s).
Definition set_cache_file (f : option (option json)) (s : state) : state :=
  mkState (config s) (config_file s) f (pkg_dirs s) (out s).
Definition set_pkg_dirs (d : list (string * pkgdir)) (s : state) : state :=
  mkState (config s) (config_file s) (cache_file s) d (out s).
Definition add_out (e : event) (s : state) : state :=
  mkState (config s) (config_file s) (cache_file s) (pkg_dirs s) (out s ++ [e]).

(** ** A state and exception monad

    A Python exception does not undo the mutations made before it: [Exc]
    carries the state at the point of the raise. *)

Inductive res (A : Type) : Type :=
| Ok (a : A) (s : state)
| Exc (s : state).
Arguments Ok {A} a s.
Arguments Exc {A} s.

Definition M (A : Type) : Type := state -> res A.

Definition ret {A} (a : A) : M A := fun s => Ok a s.
Definition bind {A B} (m : M A) (k : A -> M B) : M B :=
  fun s => match m s with Ok a s' => k a s' | Exc s' => Exc s' end.
Definition raise {A} : M A := fun s => Exc s.
Definition modify (f : state -> state) : M unit := fun s => Ok tt (f s).
Definition get_state : M state := fun s => Ok s s.
Definition emit (e : event) : M unit := modify (add_out e).
Definition of_opt {A} (o : option A) : M A :=
  match o with Some a => ret a | None => raise end.

(** [try: m except Exception: h] *)
Definition try_except {A} (m : M A) (h : M A) : M A :=
  fun s => match m s with Ok a s' => Ok a s' | Exc s' => h s' end.

Notation "x <- c1 ;; c2" := (bind c1 (fun x => c2))
  (at level 61, c1 at next level, right associativity).
Notation "c1 ;; c2" := (bind c1 (fun _ => c2))
  (at level 61, right associativity).

Definition res_state {A} (r : res A) : state :=
  match r with Ok _ s => s | Exc s => s end.

(** ** Python operations on JSON values *)

(** Truth value of [if x:] *)
Definition truthy (j : json) : bool :=
  match j with
  | JNull => false
  | JBool b => b
  | JNum z => negb (Z.eqb z 0)
  | JStr s => negb (String.eqb s "")
  | JArr l => negb (Nat.eqb (length l) 0)
  | JObj o => negb (Nat.eqb (length o) 0)
  end.

(** [x in c] for a string [x]; [None] is the [TypeError] of a scalar [c]. *)
Definition py_in (x : string) (c : json) : option bool :=
  match c with
  | JObj o => Some (existsb (String.eqb x) (obj_keys o))
  | JArr l => Some (existsb (fun j => match j with JStr s => String.eqb s x | _ => false end) l)
  | JStr s => Some (match String.index 0 x s with Some _ => true | None => false end)
  | _ => None
  end.

(** [c.keys()]: only a dict has it. *)
Definition py_keys (c : json) : option (list string) :=
  match c with JObj o => Some (obj_keys o) | _ => None end.

(** [c[x]] for a string [x]; lists and strings refuse a string index. *)
Definition py_getitem (c : json) (x : string) : option json :=
  match c with JObj o => obj_get o x | _ => None end.

(** [len(c)] *)
Definition py_len (c : json) : option nat :=
  match c with
  | JObj o => Some (length o)
  | JArr l => Some (length l)
  | JStr s => Some (String.length s)
  | _ => None
  end.

(** The items of an iterable that [', '.join] accepts (all strings). *)
Fixpoint all_strs (l : list json) : option (list string) :=
  match l with
  | [] => Some []
  | JStr s :: l' => match all_strs l' with Some r => Some (s :: r) | None => None end
  | _ :: _ => None
  end.

Definition join_items (c : json) : option (list string) :=
  match c with
  | JArr l => all_strs l
  | JStr s => Some (map char_str (list_ascii_of_string s))
  | JObj o => Some (obj_keys o)
  | _ => None
  end.

(** [info.get(k, default)]: only a dict has [.get] ([AttributeError]
    otherwise). *)
Definition obj_get_or (o : list (string * json)) (k : string) (default : json) : json :=
  match obj_get o k with Some v => v | None => default end.

Definition info_get (info : json) (k : string) (default : json) : M json :=
  match info with
  | JObj o => ret (obj_get_or o k default)
  | _ => raise
  end.

(** ** File-system primitives on [PACKAGES_DIR] *)

Fixpoint dir_get (name : string) (ds : list (string * pkgdir)) : option pkgdir :=
  match ds with
  | [] => None
  | (n, d) :: ds' => if String.eqb name n then Some d else dir_get name ds'
  end.

Fixpoint file_set (f : string) (c : fcontent) (d : pkgdir) : pkgdir :=
  match d with
  | [] => [(f, c)]
  | (f', c') :: d' => if String.eqb f f' then (f', c) :: d' else (f', c') :: file_set f c d'
  end.

Fixpoint put_file (name f : string) (c : fcontent) (ds : list (string * pkgdir))
  : list (string * pkgdir) :=
  match ds with
  | [] => []
  | (n, d) :: ds' =>
      if String.eqb name n then (n, file_set f c d) :: ds' else (n, d) :: put_file name f c ds'
  end.

Definition mk_dir (name : string) (ds : list (string * pkgdir)) : list (string * pkgdir) :=
  match dir_get name ds with Some _ => ds | None => ds ++ [(name, [])] end.

Definition rm_dir (name : string) (ds : list (string * pkgdir)) : list (string * pkgdir) :=
  filter (fun nd => negb (String.eqb name (fst nd))) ds.

(** *** Paths that leave the flat model

    [PACKAGES_DIR / name] is a new entry directly under [PACKAGES_DIR]
    exactly when [name] is one path component: not empty (as
    [Path('.').name] is), not ["."] or [".."], without ['/'] or a NUL byte,
    and at most 255 bytes long ([NAME_MAX]).  Only such names are modelled
    by the directory list [pkg_dirs]; any other name ([''] is
    [PACKAGES_DIR] itself, ['..'] is [~/.initlang], ['org/x'] needs the
    directory [org], ['/abs'] is an absolute path, ...) is handed to the
    operating system below.  The file system is POSIX, with case-sensitive
    names. *)
Definition plain_name (n : string) : bool :=
  negb (String.eqb n "") && negb (String.eqb n ".") && negb (String.eqb n "..") &&
  negb (existsb (fun c => Ascii.eqb c "/"%char || Ascii.eqb c "000"%char)
          (list_ascii_of_string n)) &&
  Nat.leb (String.length n) 255.

(** A call on [PACKAGES_DIR / name] for a name that leaves the flat model. *)
Inductive fs_call : Type :=
| FsMkdir (name : string)                      (* [(PACKAGES_DIR / name).mkdir(exist_ok=True)] *)
| FsWrite (name f : string) (c : fcontent)     (* [open(PACKAGES_DIR / name / f, 'w')], write *)
| FsRmtree (name : string)                     (* [if dir.exists(): shutil.rmtree(dir)] *)
| FsCopytree (name : string) (files : pkgdir). (* [shutil.copytree(source, PACKAGES_DIR / name)] *)

(** The files of the process: [packages.json], the index cache and the
    package directories. *)
(** The name [PACKAGES_DIR / name] of a call. *)
Definition call_name (c : fs_call) : string :=
  match c with
  | FsMkdir n | FsWrite n _ _ | FsRmtree n | FsCopytree n _ => n
  end.

Record fsys : Type := mkFsys {
  fs_config_file : option pydict;
  fs_cache_file : option (option json);
  fs_pkg_dirs : list (string * pkgdir) }.

(** The operating system, for the calls the flat model does not cover:
    whether the call returns (or raises), and the files afterwards; and
    whether [PACKAGES_DIR / name / f] exists.  It can change any file but
    not the memory of the process ([self.config], the output).  The
    theorems quantify over every [OS]. *)
Class OS : Type := {
  os_run : fs_call -> fsys -> bool * fsys;
  os_exists : string -> string -> fsys -> bool }.

Definition fs_of (s : state) : fsys := mkFsys (config_file s) (cache_file s) (pkg_dirs s).

Definition with_fs (f : fsys) (s : state) : state :=
  mkState (config s) (fs_config_file f) (fs_cache_file f) (fs_pkg_dirs f) (out s).

Definition os_call {os : OS} (c : fs_call) : M unit :=
  fun s => match os_run c (fs_of s) with
           | (true, f) => Ok tt (with_fs f s)
           | (false, f) => Exc (with_fs f s)
           end.

(** [(PACKAGES_DIR / name).mkdir(exist_ok=True)] *)
Definition mkdir_exist_ok {os : OS} (name : string) : M unit :=
  if plain_name name then modify (fun s => set_pkg_dirs (mk_dir name (pkg_dirs s)) s)
  else os_call (FsMkdir name).

(** [if dir.exists(): shutil.rmtree(dir)] for [dir = PACKAGES_DIR / name] *)
Definition rmtree_if_exists {os : OS} (name : string) : M unit :=
  if plain_name name then modify (fun s => set_pkg_dirs (rm_dir name (pkg_dirs s)) s)
  else os_call (FsRmtree name).

(** [shutil.copytree(source, PACKAGES_DIR / name)], the target being absent
    ([install_local] removes it just before).  [overlaps] tells whether the
    source and the target overlap (one is, contains or lies inside the
    other): the source is then not a separate snapshot ([rmtree] of the
    target may have removed it), and the operating system decides. *)
Definition copytree {os : OS} (name : string) (files : pkgdir) (overlaps : bool) : M unit :=
  if plain_name name && negb overlaps
  then modify (fun s => set_pkg_dirs (pkg_dirs s ++ [(name, files)]) s)
  else os_call (FsCopytree name files).

(** [open(PACKAGES_DIR / name / f, 'w')] and write: the directory must exist. *)
Definition write_file {os : OS} (name f : string) (c : fcontent) : M unit :=
  if plain_name name then
    fun s => match dir_get name (pkg_dirs s) with
             | Some _ => Ok tt (set_pkg_dirs (put_file name f c (pkg_dirs s)) s)
             | None => Exc s
             end
  else os_call (FsWrite name f c).

(** ** The configuration dict [self.config] *)

(** [self.config["installed_packages"]] *)
Definition get_installed : M json :=
  fun s => match dict_get (config s) (KStr "installed_packages") with
           | Some v => Ok v s
           | None => Exc s
           end.

(** [name in self.config["installed_packages"]] *)
Definition in_installed (name : string) : M bool :=
  v <- get_installed ;; of_opt (py_in name v).

(** [self.config["installed_packages"][name] = entry]: item assignment on
    anything but a dict raises [TypeError]. *)
Definition set_installed (name : string) (entry : json) : M unit :=
  v <- get_installed ;;
  match v with
  | JObj o => modify (fun s => set_config
                 (dict_set (KStr "installed_packages") (JObj (obj_set name entry o)) (config s)) s)
  | _ => raise
  end.

(** [del self.config["installed_packages"][name]] *)
Definition del_installed (name : string) : M unit :=
  v <- get_installed ;;
  match v with
  | JObj o =>
      if existsb (String.eqb name) (obj_keys o)
      then modify (fun s => set_config
             (dict_set (KStr "installed_packages") (JObj (obj_del name o)) (config s)) s)
      else raise                                   (* KeyError *)
  | _ => raise
  end.

(** [save_config]: [json.dump(self.config, f)] over [packages.json]. *)
Definition save_config : M unit :=
  modify (fun s => set_config_file (Some (config s)) s).

(** The pieces of a path between its slashes. *)
Fixpoint split_slash (acc s : string) : list string :=
  match s with
  | EmptyString => [acc]
  | String c s' =>
      if Ascii.eqb c "/"%char then acc :: split_slash EmptyString s'
      else split_slash (acc ++ String c EmptyString) s'
  end.

(** The components [PurePosixPath] keeps: not empty, not ["."]. *)
Definition path_parts (s : string) : list string :=
  filter (fun p => negb (String.eqb p "" || String.eqb p ".")) (split_slash EmptyString s).

(** A path starting with exactly two slashes. *)
Definition two_slash_root (s : string) : bool :=
  match s with
  | String a (String b rest) =>
      Ascii.eqb a "/"%char && Ascii.eqb b "/"%char &&
      negb (match rest with String c _ => Ascii.eqb c "/"%char | EmptyString => false end)
  | _ => false
  end.

Definition main_url (name : string) : string :=
  GITHUB_REPO ++ "/packages/" ++ name ++ "/main.init".

Definition INDEX_URL : string := GITHUB_REPO ++ "/index.json".

Section Manager.

Context {os : OS}.

(** The network: the text [urllib.request.urlopen(url).read().decode()]
    returns, or [None] when one of these raises (connection error, HTTP
    error status, undecodable bytes). *)
Variable net : string -> option string.

(** [json.loads]: [None] on a malformed payload. *)
Variable json_loads : string -> option json.

(** [str(PACKAGES_DIR)] *)
Variable PACKAGES_DIR : string.

(** [str(PACKAGES_DIR / name)] ([PurePosixPath]): an absolute [name]
    replaces [PACKAGES_DIR], empty and ["."] components are dropped, and a
    path that starts with exactly two slashes keeps them. *)
Definition pkg_path (name : string) : string :=
  match name with
  | String c _ =>
      if Ascii.eqb c "/"%char
      then (if two_slash_root name then "//" else "/") ++ String.concat "/" (path_parts name)
      else match path_parts name with
           | [] => PACKAGES_DIR
           | ps => PACKAGES_DIR ++ "/" ++ String.concat "/" ps
           end
  | EmptyString => PACKAGES_DIR
  end.

(** *** [fetch_package_index] *)

Definition fetch_package_index : M json :=
  try_except
    (s <- get_state ;;
     match cache_file s with
     | Some (Some v) => ret v                      (* the cache is read first *)
     | Some None => raise                          (* json.load(f) raises *)
     | None =>
         emit EvConnecting ;;
         body <- of_opt (net INDEX_URL) ;;
         data <- of_opt (json_loads body) ;;
         modify (set_cache_file (Some (Some data))) ;;
         n <- of_opt (py_len data) ;;
         emit (EvIndexUpdated n) ;;
         ret data
     end)
    (emit EvConnError ;; emit EvUsingLocalCache ;; ret (JObj [])).

(** *** [download_package] *)

Definition github_entry (name : string) (version : json) : json :=
  JObj [("version", version); ("path", JStr (pkg_path name)); ("source", JStr "github")].

Definition download_package (name : string) (info : json) : M bool :=
  try_except
    (v <- info_get info "version" (JStr "1.0.0") ;;
     emit (EvInstalling name v) ;;
     mkdir_exist_ok name ;;
     fetched <- try_except
                  (content <- of_opt (net (main_url name)) ;;
                   write_file name "main.init" (FText content) ;;
                   ret true)
                  (emit (EvDownloadError name) ;; ret false) ;;
     if negb fetched then ret false else
     (v1 <- info_get info "version" (JStr "1.0.0") ;;
      d <- info_get info "description" (JStr "") ;;
      a <- info_get info "author" (JStr "gopu-inc") ;;
      write_file name "package.json"
        (FJson (JObj [("name", JStr name); ("version", v1); ("description", d); ("author", a)])) ;;
      v2 <- info_get info "version" (JStr "1.0.0") ;;
      set_installed name (github_entry name v2) ;;
      save_config ;;
      emit (EvInstalled name) ;;
      ret true))
    (emit (EvInstallFailure name) ;; ret false).

(** *** [_install_single]

    Lines 212-217 of the source: install the dependencies of a package just
    installed, skipping those already installed. *)

Fixpoint for_each_dep (installing : string -> M unit) (l : list string) : M unit :=
  match l with
  | [] => ret tt
  | d :: l' =>
      b <- in_installed d ;;
      (if b then ret tt else installing d) ;;
      for_each_dep installing l'
  end.

Definition install_deps (installing : string -> M unit) (info : json) : M unit :=
  deps <- info_get info "dependencies" (JArr []) ;;
  if truthy deps then
    (ds <- of_opt (join_items deps) ;;
     emit (EvInstallingDeps ds) ;;
     for_each_dep installing ds)
  else ret tt.

(** The recursion is bounded by [fuel]; running out of it raises, as
    Python's [RecursionError] does. *)
Fixpoint install_single (fuel : nat) (name : string) (index : json) : M unit :=
  match fuel with
  | O => raise
  | S f =>
      inst <- in_installed name ;;
      if inst then emit (EvAlreadyInstalled name) else
      (found <- of_opt (py_in name index) ;;
       if negb found then
         (emit (EvNotFound name) ;;
          keys <- of_opt (py_keys index) ;;
          emit (EvAvailable keys))
       else
         (info <- of_opt (py_getitem index name) ;;
          ok <- download_package name info ;;
          if ok then install_deps (fun d => install_single f d index) info
          else emit (EvFailedToInstall name)))
  end.

(** *** [install] *)

Fixpoint install_each (fuel : nat) (index : json) (i total : nat) (names : list string)
  : M unit :=
  match names with
  | [] => ret tt
  | n :: ns =>
      emit (EvProgress (S i) total) ;;
      install_single fuel n index ;;
      install_each fuel index (S i) total ns
  end.

Definition install (fuel : nat) (names : list string) : M unit :=
  index <- fetch_package_index ;;
  if negb (truthy index) then (emit EvCannotConnect ;; emit EvCheckConnection)
  else install_each fuel index 0 (length names) names.

(** *** [install_local]: the source directory is given by its name
    ([Path(package_path).name]), its files, and whether it overlaps the
    target [PACKAGES_DIR / name] (see [copytree]). *)

Definition install_local (name : string) (files : pkgdir) (overlaps : bool) : M unit :=
  match find (fun fc => String.eqb (fst fc) "main.init") files with
  | None => emit (EvNoMainInit name)
  | Some _ =>
      emit (EvInstallingLocal name) ;;
      rmtree_if_exists name ;;
      copytree name files overlaps ;;
      set_installed name
        (JObj [("version", JStr "1.0.0"); ("path", JStr (pkg_path name)); ("source", JStr "local")]) ;;
      save_config ;;
      emit (EvInstalledLocal name)
  end.

(** *** [uninstall] *)

Definition uninstall (name : string) : M unit :=
  b <- in_installed name ;;
  if negb b then emit (EvNotInstalled name) else
  (emit (EvUninstalling name) ;;
   rmtree_if_exists name ;;
   del_installed name ;;
   save_config ;;
   emit (EvUninstalled name)).

End Manager.

(** ** The other commands *)

Definition nl : string := String "010"%char EmptyString.
Definition dq : string := String "034"%char EmptyString.

(** The [main.init] that [create_package] writes (lines 232-241). *)
Definition main_template (name version : string) : string :=
  "# Package " ++ name ++ nl ++ nl ++
  "init.log(" ++ dq ++ "Package " ++ name ++ " loaded!" ++ dq ++ ")" ++ nl ++ nl ++
  "fi hello() {" ++ nl ++
  "    init.ger(" ++ dq ++ "Hello from " ++ name ++ "!" ++ dq ++ ")" ++ nl ++
  "}" ++ nl ++ nl ++
  "let version ==> " ++ dq ++ version ++ dq ++ nl.

(** [(PACKAGES_DIR / name / f).exists()] *)
Definition file_exists (name f : string) (ds : list (string * pkgdir)) : bool :=
  match dir_get name ds with
  | Some d => existsb (fun fc => String.eqb (fst fc) f) d
  | None => false
  end.

(** [c.items()]: only a dict has it. *)
Definition py_items (c : json) : option (list (string * json)) :=
  match c with JObj o => Some o | _ => None end.

(** A [for] loop over a list. *)
Fixpoint for_each {A} (l : list A) (body : A -> M unit) : M unit :=
  match l with
  | [] => ret tt
  | x :: l' => body x ;; for_each l' body
  end.

(** [for x in l: if p(x): results.append(x)] *)
Fixpoint filter_m {A} (p : A -> M bool) (l : list A) : M (list A) :=
  match l with
  | [] => ret []
  | x :: l' =>
      b <- p x ;;
      r <- filter_m p l' ;;
      ret (if b then x :: r else r)
  end.

(** [(PACKAGES_DIR / name / f).exists()] *)
Definition path_exists {os : OS} (name f : string) : M bool :=
  fun s => Ok (if plain_name name then file_exists name f (pkg_dirs s)
               else os_exists name f (fs_of s)) s.

(** [create_package(name, version)] *)
Definition create_package {os : OS} (name version : string) : M unit :=
  mkdir_exist_ok name ;;
  b <- path_exists name "main.init" ;;
  (if b then ret tt
   else write_file name "main.init" (FText (main_template name version))) ;;
  write_file name "package.json"
    (FJson (JObj [("name", JStr name); ("version", JStr version);
                  ("description", JStr ("Package " ++ name ++ " for INITLANG"))])) ;;
  emit (EvCreated name).

(** [list_installed] *)
Definition list_installed : M unit :=
  v <- get_installed ;;
  if negb (truthy v) then emit EvNoPackagesInstalled else
  (emit EvInstalledHeader ;;
   items <- of_opt (py_items v) ;;
   for_each items (fun kv =>
     src <- info_get (snd kv) "source" (JStr "inconnu") ;;
     ver <- of_opt (py_getitem (snd kv) "version") ;;
     emit (EvListedInstalled (fst kv) ver src))).

(** The line printed for an index entry by [list_available] and [search]:
    [installed = ... if name in installed_packages ...], then the f-string
    reads [info['version']] and [info.get('description', '')]. *)
Definition show_entry (kv : string * json) : M unit :=
  inst <- in_installed (fst kv) ;;
  ver <- of_opt (py_getitem (snd kv) "version") ;;
  d <- info_get (snd kv) "description" (JStr "") ;;
  emit (EvListedAvailable inst (fst kv) ver d).

(** [uninstall] for each name, as [main] runs [initl uninstall a b ...]. *)
Fixpoint uninstall_all {os : OS} (names : list string) : M unit :=
  match names with
  | [] => ret tt
  | n :: ns => uninstall n ;; uninstall_all ns
  end.

Definition show_help : M unit := emit EvHelp.

Section Commands.

Context {os : OS}.

Variable net : string -> option string.
Variable json_loads : string -> option json.
Variable PACKAGES_DIR : string.

(** Python's [str.lower]. *)
Variable lower : string -> string.

(** [str(x)] of a JSON value, as an f-string formats it. *)
Variable py_str : json -> string.

(** [install-local PATH]: [Path(PATH).name], the files of that directory,
    and whether it overlaps [PACKAGES_DIR / Path(PATH).name]. *)
Variable read_source : string -> string * pkgdir * bool.

(** Python's recursion limit, as the fuel of [_install_single]. *)
Variable fuel : nat.

Definition list_available : M unit :=
  index <- fetch_package_index net json_loads ;;
  if negb (truthy index) then emit EvCannotFetchAvailable else
  (emit EvAvailableHeader ;;
   items <- of_opt (py_items index) ;;
   for_each items show_entry).

(** [search(query)]: the text searched is
    [f"{name} {desc} {' '.join(keywords)}".lower()]. *)
Definition search_match (query : string) (kv : string * json) : M bool :=
  d <- info_get (snd kv) "description" (JStr "") ;;
  kw <- info_get (snd kv) "keywords" (JArr []) ;;
  ks <- of_opt (join_items kw) ;;
  of_opt (py_in (lower query)
            (JStr (lower (fst kv ++ " " ++ py_str d ++ " " ++ String.concat " " ks)))).

Definition search (query : string) : M unit :=
  index <- fetch_package_index net json_loads ;;
  items <- of_opt (py_items index) ;;
  results <- filter_m (search_match query) items ;;
  match results with
  | [] => emit (EvNoResults query)
  | _ => emit (EvResultsHeader query) ;; for_each results show_entry
  end.

(** [info(package_name)] *)
Definition info (name : string) : M unit :=
  index <- fetch_package_index net json_loads ;;
  found <- of_opt (py_in name index) ;;
  if negb found then emit (EvPackageNotFound name) else
  (i <- of_opt (py_getitem index name) ;;
   emit (EvInfoName name) ;;
   ver <- of_opt (py_getitem i "version") ;;
   emit (EvInfoVersion ver) ;;
   d <- info_get i "description" (JStr "Aucune description") ;;
   emit (EvInfoDescription d) ;;
   a <- info_get i "author" (JStr "Inconnu") ;;
   emit (EvInfoAuthor a) ;;
   l <- info_get i "license" (JStr "Inconnue") ;;
   emit (EvInfoLicense l) ;;
   has_repo <- of_opt (py_in "repository" i) ;;
   (if has_repo then (r <- of_opt (py_getitem i "repository") ;; emit (EvInfoRepository r))
    else ret tt) ;;
   has_deps <- of_opt (py_in "dependencies" i) ;;
   (if has_deps then
      (deps <- of_opt (py_getitem i "dependencies") ;;
       if truthy deps then (ds <- of_opt (join_items deps) ;; emit (EvInfoDependencies ds))
       else ret tt)
    else ret tt) ;;
   inst <- in_installed name ;;
   emit (if inst then EvStatusInstalled else EvStatusNotInstalled)).

(** [update_index]: [cache_file.unlink()] when it exists, then fetch. *)
Definition update_index : M unit :=
  modify (set_cache_file None) ;;
  index <- fetch_package_index net json_loads ;;
  if truthy index then (n <- of_opt (py_len index) ;; emit (EvIndexUpdated n)) else ret tt.

(** The body of the [try] of [main]: one branch per command. *)
Definition run_command (c : string) (args : list string) : M unit :=
  if String.eqb c "install" then
    match args with
    | [] => emit (EvMissingArgument c)
    | _ => install net json_loads PACKAGES_DIR fuel args
    end
  else if String.eqb c "uninstall" then
    match args with
    | [] => emit (EvMissingArgument c)
    | _ => uninstall_all args
    end
  else if String.eqb c "create" then
    match args with
    | [] => emit (EvMissingArgument c)
    | a :: _ => create_package a "1.0.0"
    end
  else if String.eqb c "install-local" then
    match args with
    | [] => emit (EvMissingArgument c)
    | a :: _ => let '(n, files, ov) := read_source a in install_local PACKAGES_DIR n files ov
    end
  else if String.eqb c "list" then list_installed
  else if String.eqb c "available" then list_available
  else if String.eqb c "search" then
    match args with
    | [] => emit (EvMissingArgument c)
    | a :: _ => search a
    end
  else if String.eqb c "info" then
    match args with
    | [] => emit (EvMissingArgument c)
    | a :: _ => info a
    end
  else if String.eqb c "update" then update_index
  else (emit (EvUnknownCommand c) ;; show_help).

(** [main], from the parsed [args.command] and [args.args]; [cfg] is
    [packages.json] as [PackageManager()] loads it. *)
Definition main (cfg : config_source) (command : option string) (args : list string)
  : M unit :=
  modify (set_config (load_config cfg)) ;;
  match command with
  | None => show_help
  | Some c =>
      if (String.eqb c "" || String.eqb c "-h" || String.eqb c "--help")%bool then show_help
      else try_except (run_command c args) (emit EvError)
  end.

End Commands.

(** ** Notions used in the statements *)


(** An operating system that refuses every call outside the flat model and
    changes nothing, as [mkdir] does for [PACKAGES_DIR / 'org/x'] when
    [org] does not exist ([FileNotFoundError]); no such path exists. *)
Definition os_refuse : OS :=
  {| os_run := fun _ f => (false, f); os_exists := fun _ _ _ => false |}.


(** The dict that [json.load] parsed from a JSON object. *)
Definition dict_of_obj (o : list (string * json)) : pydict :=
  map (fun kv => (KStr (fst kv), snd kv)) o.

(** A fresh process whose [installed_packages] is [o]. *)
Definition st_with_installed (o : list (string * json)) : state :=
  mkState (dict_set (KStr "installed_packages") (JObj o) default_config) None None [] [].

(** The keys of [self.config["installed_packages"]] (none when it is not a
    dict). *)
Definition installed_keys (s : state) : list string :=
  match dict_get (config s) (KStr "installed_packages") with
  | Some (JObj o) => obj_keys o
  | _ => []
  end.




(** An action that never removes a key of [installed_packages], whether it
    returns or raises. *)
Definition keeps_keys {A} (m : M A) : Prop :=
  forall s, incl (installed_keys s) (installed_keys (res_state (m s))).


(** An entry of [installed_packages] that [list_installed] can print:
    a dict with a ["version"] key. *)
Definition entry_ok (e : json) : Prop :=
  exists o, e = JObj o /\ In "version" (obj_keys o).

(** [self.config], [packages.json] and the package directories are
    unchanged from [s] to [s']. *)
Definition same_files (s s' : state) : Prop :=
  config s' = config s /\ config_file s' = config_file s /\ pkg_dirs s' = pkg_dirs s.


(** [installed_packages] is a dict whose entries are all [entry_ok]. *)
Definition good_installed (s : state) : Prop :=
  exists o, dict_get (config s) (KStr "installed_packages") = Some (JObj o) /\
            Forall (fun kv => entry_ok (snd kv)) o.




(** The names on the package lines of an output. *)
Definition listed_names (evs : list event) : list string :=
  flat_map (fun e => match e with EvListedAvailable _ n _ _ => [n] | _ => [] end) evs.

(** Every outcome of [m] (return or raise) is related to its start
    state by [R]. *)
Definition stable_under (R : state -> state -> Prop) {A} (m : M A) : Prop :=
  forall s, R s (res_state (m s)).

(** ** Basic facts *)

Lemma bind_Ok {A B} (m : M A) (k : A -> M B) s a s' :
  m s = Ok a s' -> bind m k s = k a s'.
Proof. unfold bind. intros H. rewrite H. reflexivity. Qed.

Lemma bind_Exc {A B} (m : M A) (k : A -> M B) s s' :
  m s = Exc s' -> bind m k s = Exc s'.
Proof. unfold bind. intros H. rewrite H. reflexivity. Qed.

Lemma existsb_eqb_In (x : string) (l : list string) :
  existsb (String.eqb x) l = true <-> In x l.
Proof.
  rewrite existsb_exists. split.
  - intros [y [Hy Heq]]. apply String.eqb_eq in Heq. subst. exact Hy.
  - intros H. exists x. split; [exact H | apply String.eqb_refl].
Qed.

Lemma existsb_eqb_notIn (x : string) (l : list string) :
  ~ In x l -> existsb (String.eqb x) l = false.
Proof.
  intros H. destruct (existsb (String.eqb x) l) eqn:E; [|reflexivity].
  apply existsb_eqb_In in E. contradiction.
Qed.

Lemma pykey_eqb_KStr_l (a : string) (k : pykey) :
  pykey_eqb (KStr a) k = true -> k = KStr a.
Proof.
  destruct k; simpl; try discriminate.
  intros H. apply String.eqb_eq in H. subst. reflexivity.
Qed.

Lemma dict_get_set_same (a : string) (v : json) (d : pydict) :
  dict_get (dict_set (KStr a) v d) (KStr a) = Some v.
Proof.
  induction d as [|[k' v'] d IH].
  - cbn. rewrite String.eqb_refl. reflexivity.
  - cbn [dict_set]. destruct (pykey_eqb (KStr a) k') eqn:E.
    + apply pykey_eqb_KStr_l in E. subst. cbn [dict_get pykey_eqb].
      rewrite String.eqb_refl. reflexivity.
    + cbn [dict_get]. rewrite E. exact IH.
Qed.

Lemma dict_get_set_other (a b : string) (v : json) (d : pydict) :
  a <> b -> dict_get (dict_set (KStr a) v d) (KStr b) = dict_get d (KStr b).
Proof.
  intros Hab. induction d as [|[k' v'] d IH].
  - cbn. destruct (String.eqb_spec b a); [congruence | reflexivity].
  - cbn [dict_set]. destruct (pykey_eqb (KStr a) k') eqn:E.
    + apply pykey_eqb_KStr_l in E. subst. cbn [dict_get pykey_eqb].
      destruct (String.eqb_spec b a); [congruence | reflexivity].
    + cbn [dict_get]. rewrite IH. reflexivity.
Qed.

Lemma obj_get_notin (o : list (string * json)) (k : string) :
  ~ In k (obj_keys o) -> obj_get o k = None.
Proof.
  induction o as [|[k' v'] o IH]; simpl; intros H; [reflexivity|].
  destruct (String.eqb_spec k k'); [subst; tauto|].
  apply IH. tauto.
Qed.

Lemma obj_keys_set (n k : string) (v : json) (o : list (string * json)) :
  In k (obj_keys (obj_set n v o)) <-> k = n \/ In k (obj_keys o).
Proof.
  induction o as [|[k' v'] o IH]; simpl.
  - firstorder congruence.
  - destruct (String.eqb_spec n k'); simpl.
    + subst. firstorder congruence.
    + rewrite IH. firstorder congruence.
Qed.


(** Merging a JSON object into a dict: each key of the object overrides. *)
Lemma dict_get_merge (o : list (string * json)) (d : pydict) (k : string) :
  NoDup (obj_keys o) ->
  dict_get (fold_left (fun d kv => dict_set (KStr (fst kv)) (snd kv) d) o d) (KStr k) =
  match obj_get o k with Some v => Some v | None => dict_get d (KStr k) end.
Proof.
  revert d. induction o as [|[k' v'] o IH]; intros d Hnd; simpl; [reflexivity|].
  inversion Hnd as [|? ? Hnotin Hnd']; subst.
  rewrite (IH _ Hnd').
  destruct (String.eqb_spec k k').
  - subst. rewrite (obj_get_notin _ _ Hnotin). apply dict_get_set_same.
  - destruct (obj_get o k); [reflexivity|]. apply dict_get_set_other. congruence.
Qed.

Lemma in_installed_obj (s : state) (o : list (string * json)) (name : string) :
  dict_get (config s) (KStr "installed_packages") = Some (JObj o) ->
  in_installed name s = Ok (existsb (String.eqb name) (obj_keys o)) s.
Proof. intros H. unfold in_installed, bind, get_installed. rewrite H. reflexivity. Qed.

(** ** C6: loading the configuration *)

(** C6 (as stated, refuted): a state file that exists and parses is not
    returned as parsed: [load_config] merges it into the defaults, so a
    file holding only a repository URL yields a state that also has an
    [installed_packages] key the file does not have. *)
Lemma load_config_not_parsed_state :
  let o := [("repository", JStr "https://example.org/pkgs")] in
  dict_get (load_config (Some (Some (JObj o)))) (KStr "installed_packages") = Some (JObj []) /\
  dict_get (dict_of_obj o) (KStr "installed_packages") = None.
Proof. split; reflexivity. Qed.

(** C6 (amended): when [packages.json] is absent or does not parse,
    [load_config] yields the default state (the built-in repository URL and
    an empty installed map); when it holds a JSON object, the result is the
    default state with every top-level key of the object overriding or
    adding to it, keys missing from the file keeping their default value.
    [load_config] is a total function: no error reaches the caller. *)
Theorem load_config_merges_over_defaults :
  load_config None = default_config /\
  load_config (Some None) = default_config /\
  dict_get default_config (KStr "repository") = Some (JStr GITHUB_REPO) /\
  dict_get default_config (KStr "installed_packages") = Some (JObj []) /\
  (forall o, NoDup (obj_keys o) ->
   forall k, dict_get (load_config (Some (Some (JObj o)))) (KStr k) =
             match obj_get o k with
             | Some v => Some v
             | None => dict_get default_config (KStr k)
             end).
Proof.
  repeat split; try reflexivity.
  intros o Hnd k. cbn [load_config dict_update]. apply dict_get_merge. exact Hnd.
Qed.

Lemma load_config_merges_over_defaults_witness :
  NoDup (obj_keys [("repository", JStr "https://example.org/pkgs")]) /\
  dict_get (load_config (Some (Some (JObj [("repository", JStr "https://example.org/pkgs")]))))
           (KStr "installed_packages") = dict_get default_config (KStr "installed_packages").
Proof.
  assert (Hnd : NoDup (obj_keys [("repository", JStr "https://example.org/pkgs")]))
    by (repeat constructor; simpl; tauto).
  split; [exact Hnd|].
  pose proof (proj2 (proj2 (proj2 (proj2 load_config_merges_over_defaults)))
                _ Hnd "installed_packages") as H.
  rewrite H. reflexivity.
Defined.

(** ** C3: installing an installed package *)

(** C3: when [name] is already a key of [installed_packages],
    [_install_single] stops at once: it reports it, reads neither the
    index nor the network (the result is the same for any network), and
    leaves the configuration, the saved file, the cache and the package
    directories as they were. *)
Theorem install_single_installed_noop {os : OS} net P f name index s o :
  dict_get (config s) (KStr "installed_packages") = Some (JObj o) ->
  In name (obj_keys o) ->
  exists s',
    install_single net P (S f) name index s = Ok tt s' /\
    (forall net', install_single net' P (S f) name index s = Ok tt s') /\
    config s' = config s /\ config_file s' = config_file s /\
    cache_file s' = cache_file s /\ pkg_dirs s' = pkg_dirs s /\
    out s' = (out s ++ [EvAlreadyInstalled name])%list.
Proof.
  intros Hcfg Hin. exists (add_out (EvAlreadyInstalled name) s).
  assert (Hrun : forall net', install_single net' P (S f) name index s
                              = Ok tt (add_out (EvAlreadyInstalled name) s)).
  { intros net'. cbn [install_single].
    rewrite (bind_Ok _ _ _ _ _ (in_installed_obj s o name Hcfg)).
    rewrite (proj2 (existsb_eqb_In _ _) Hin). reflexivity. }
  repeat split; try reflexivity; apply Hrun.
Qed.

Lemma install_single_installed_noop_witness :
  let os : OS := os_refuse in
  exists s',
    install_single (fun _ => None) "/home/u/.initlang/packages" 3 "math"
      (JObj [("math", JObj [])]) (st_with_installed [("math", JObj [])]) = Ok tt s' /\
    out s' = [EvAlreadyInstalled "math"].
Proof.
  intros os.
  destruct (install_single_installed_noop (fun _ => None)
              "/home/u/.initlang/packages" 2 "math" (JObj [("math", JObj [])])
              (st_with_installed [("math", JObj [])]) [("math", JObj [])])
    as [s' [H1 [_ [_ [_ [_ [_ H2]]]]]]]; [reflexivity | simpl; auto |].
  exists s'. split; [exact H1 | exact H2].
Defined.

(** ** C5: a name missing from the index *)

(** C5 (as stated, refuted): a name that is already installed (here a
    package installed locally) is not reported as missing from the index,
    and no list of available names is printed: the installed check comes
    first. *)
Lemma install_single_installed_absent_no_hint :
  let os : OS := os_refuse in
  exists s',
    install_single (fun _ => None) "/home/u/.initlang/packages" 3 "mylib"
      (JObj [("math", JObj [])])
      (st_with_installed [("mylib", JObj [("version", JStr "1.0.0"); ("source", JStr "local")])])
    = Ok tt s' /\
    out s' = [EvAlreadyInstalled "mylib"] /\
    (forall l, ~ In (EvAvailable l) (out s')).
Proof.
  intros os.
  eexists. split; [reflexivity|]. split; [reflexivity|].
  intros l [H | []]. discriminate.
Qed.

(** C5 (amended): for a name that is not installed and absent from the
    index, [_install_single] reports it as not found together with every
    key of the index, performs no fetch (the result is the same for any
    network), and changes neither the configuration nor any file. *)
Theorem install_single_not_found_reports {os : OS} net P f name io s o :
  dict_get (config s) (KStr "installed_packages") = Some (JObj o) ->
  ~ In name (obj_keys o) ->
  ~ In name (obj_keys io) ->
  exists s',
    install_single net P (S f) name (JObj io) s = Ok tt s' /\
    (forall net', install_single net' P (S f) name (JObj io) s = Ok tt s') /\
    config s' = config s /\ config_file s' = config_file s /\
    cache_file s' = cache_file s /\ pkg_dirs s' = pkg_dirs s /\
    out s' = (out s ++ [EvNotFound name; EvAvailable (obj_keys io)])%list.
Proof.
  intros Hcfg Hinst Hidx.
  exists (add_out (EvAvailable (obj_keys io)) (add_out (EvNotFound name) s)).
  assert (Hrun : forall net', install_single net' P (S f) name (JObj io) s
            = Ok tt (add_out (EvAvailable (obj_keys io)) (add_out (EvNotFound name) s))).
  { intros net'. cbn [install_single].
    rewrite (bind_Ok _ _ _ _ _ (in_installed_obj s o name Hcfg)).
    rewrite (existsb_eqb_notIn _ _ Hinst). cbn beta iota.
    cbn [py_in]. rewrite (existsb_eqb_notIn _ _ Hidx). reflexivity. }
  repeat split; try reflexivity; try apply Hrun.
  simpl. rewrite <- app_assoc. reflexivity.
Qed.

Lemma install_single_not_found_reports_witness :
  let os : OS := os_refuse in
  exists s',
    install_single (fun _ => None) "/home/u/.initlang/packages" 3 "http"
      (JObj [("math", JObj []); ("strings", JObj [])]) (st_with_installed []) = Ok tt s' /\
    out s' = [EvNotFound "http"; EvAvailable ["math"; "strings"]].
Proof.
  intros os.
  destruct (install_single_not_found_reports (fun _ => None) "/home/u/.initlang/packages" 2
              "http" [("math", JObj []); ("strings", JObj [])] (st_with_installed []) [])
    as [s' [H1 [_ [_ [_ [_ [_ H2]]]]]]];
    [reflexivity | simpl; tauto | simpl; intros [H|[H|[]]]; discriminate |].
  exists s'. split; [exact H1 | exact H2].
Defined.

(** ** C1: fetching the index *)

Lemma fetch_cache_hit net loads s v :
  cache_file s = Some (Some v) -> fetch_package_index net loads s = Ok v s.
Proof.
  intros H. unfold fetch_package_index, try_except, bind, get_state. rewrite H. reflexivity.
Qed.

(** Every outcome of [fetch_package_index]: it never raises, and touches
    only the cache file and the output. *)
Lemma fetch_frame net loads s :
  exists v s1, fetch_package_index net loads s = Ok v s1 /\
    config s1 = config s /\ config_file s1 = config_file s /\ pkg_dirs s1 = pkg_dirs s.
Proof.
  cbv [fetch_package_index try_except bind get_state ret raise emit modify of_opt].
  destruct (cache_file s) as [[v|]|];
    [| | destruct (net INDEX_URL) as [body|];
         [destruct (loads body) as [data|]; [destruct (py_len data)|] |]];
    do 2 eexists; (split; [reflexivity | repeat split]).
Qed.

(** C1 (as stated, refuted): with a cache file present, the cached index
    is returned and the network is not consulted, although here it would
    answer with a different index. *)
Lemma fetch_prefers_cache_over_network :
  let old := JObj [("math", JObj [("version", JStr "1.0.0")])] in
  let new := JObj [("math", JObj [("version", JStr "2.0.0")]); ("http", JObj [])] in
  let net := fun u => if String.eqb u INDEX_URL then Some "fresh" else None in
  let loads := fun b => if String.eqb b "fresh" then Some new else None in
  let s := mkState default_config None (Some (Some old)) [] [] in
  net INDEX_URL = Some "fresh" /\ loads "fresh" = Some new /\
  fetch_package_index net loads s = Ok old s.
Proof. repeat split; reflexivity. Qed.

(** C1 (amended): [fetch_package_index] reads the cache file first: if it
    exists, its parsed contents are returned without any network access
    (an empty mapping and a warning if it does not parse).  Only without a
    cache file does it retrieve [GITHUB_REPO/index.json] (the built-in URL,
    not the configured repository): when the payload parses to a JSON
    object it writes that index to the cache and returns it; on a network
    error or a malformed payload it returns an empty mapping and warns.  It
    never raises. *)
Theorem fetch_package_index_cache_first net loads :
  (forall s v, cache_file s = Some (Some v) ->
     fetch_package_index net loads s = Ok v s) /\
  (forall s, cache_file s = Some None ->
     fetch_package_index net loads s
     = Ok (JObj []) (add_out EvUsingLocalCache (add_out EvConnError s))) /\
  (forall s body o, cache_file s = None -> net INDEX_URL = Some body ->
     loads body = Some (JObj o) ->
     fetch_package_index net loads s
     = Ok (JObj o) (add_out (EvIndexUpdated (length o))
                      (set_cache_file (Some (Some (JObj o))) (add_out EvConnecting s)))) /\
  (forall s, cache_file s = None ->
     (net INDEX_URL = None \/ exists body, net INDEX_URL = Some body /\ loads body = None) ->
     fetch_package_index net loads s
     = Ok (JObj []) (add_out EvUsingLocalCache (add_out EvConnError (add_out EvConnecting s)))) /\
  (forall s, exists v s', fetch_package_index net loads s = Ok v s').
Proof.
  repeat split.
  - apply fetch_cache_hit.
  - intros s H. unfold fetch_package_index, try_except, bind, get_state. rewrite H. reflexivity.
  - intros s body o H Hnet Hl.
    cbv [fetch_package_index try_except bind get_state ret raise emit modify of_opt].
    rewrite H, Hnet, Hl. reflexivity.
  - intros s H [Hnet | [body [Hnet Hl]]];
      cbv [fetch_package_index try_except bind get_state ret raise emit modify of_opt];
      rewrite H, Hnet; [reflexivity|]. rewrite Hl. reflexivity.
  - intros s. destruct (fetch_frame net loads s) as [v [s1 [H _]]]. eauto.
Qed.

Lemma fetch_package_index_cache_first_witness :
  let idx := JObj [("math", JObj [("version", JStr "1.0.0")])] in
  let net := fun u => if String.eqb u INDEX_URL then Some "payload" else None in
  let loads := fun b => if String.eqb b "payload" then Some idx else None in
  let s := mkState default_config None None [] [] in
  fetch_package_index net loads s
  = Ok idx (add_out (EvIndexUpdated 1) (set_cache_file (Some (Some idx)) (add_out EvConnecting s))).
Proof.
  intros idx net loads s.
  apply (proj1 (proj2 (proj2 (fetch_package_index_cache_first net loads))) s "payload"
           [("math", JObj [("version", JStr "1.0.0")])]); reflexivity.
Defined.

(** ** C9: an empty index aborts the whole request *)

Lemma install_after_fetch {os : OS} net loads P f names s idx s1 :
  fetch_package_index net loads s = Ok idx s1 ->
  install net loads P f names s =
  (if negb (truthy idx) then (emit EvCannotConnect ;; emit EvCheckConnection)
   else install_each net P f idx 0 (length names) names) s1.
Proof. intros H. unfold install. rewrite (bind_Ok _ _ _ _ _ H). reflexivity. Qed.

(** C9: when the index fetch yields an empty mapping, [install] prints the
    connection error and returns before looking at any requested name: the
    configuration, the saved file and the package directories are those
    before the call, whatever names were requested. *)
Theorem install_empty_index_aborts {os : OS} net loads P f names s s1 :
  fetch_package_index net loads s = Ok (JObj []) s1 ->
  install net loads P f names s
  = Ok tt (add_out EvCheckConnection (add_out EvCannotConnect s1)) /\
  config s1 = config s /\ config_file s1 = config_file s /\ pkg_dirs s1 = pkg_dirs s.
Proof.
  intros H. split.
  - rewrite (install_after_fetch _ _ _ _ _ _ _ _ H). reflexivity.
  - destruct (fetch_frame net loads s) as [v [s1' [H' Hframe]]].
    rewrite H in H'. injection H' as _ <-. exact Hframe.
Qed.

Lemma install_empty_index_aborts_witness :
  let os : OS := os_refuse in
  let s0 := st_with_installed [] in
  let s1 := add_out EvUsingLocalCache (add_out EvConnError (add_out EvConnecting s0)) in
  fetch_package_index (fun _ => None) (fun _ => None) s0 = Ok (JObj []) s1 /\
  install (fun _ => None) (fun _ => None) "/home/u/.initlang/packages" 5 ["math"; "http"] s0
  = Ok tt (add_out EvCheckConnection (add_out EvCannotConnect s1)).
Proof.
  intros os.
  intros s0 s1.
  assert (H : fetch_package_index (fun _ => None) (fun _ => None) s0 = Ok (JObj []) s1)
    by reflexivity.
  split; [exact H|].
  exact (proj1 (install_empty_index_aborts _ _ _ _ _ _ _ H)).
Defined.

(** ** Package directories *)







(** ** [download_package] *)







(** ** [_install_single] *)



(** ** C4: dependency closure *)




(** ** C2: a failed artifact fetch *)

Lemma fetch_frame_eq net loads s v s1 :
  fetch_package_index net loads s = Ok v s1 ->
  config s1 = config s /\ config_file s1 = config_file s /\ pkg_dirs s1 = pkg_dirs s.
Proof.
  intros H. destruct (fetch_frame net loads s) as [v' [s1' [H' Hf]]].
  rewrite H in H'. injection H' as _ <-. exact Hf.
Qed.






(** ** C8: the package directory is reused, not replaced *)

(** C8 (code defect): a leftover directory [math] holding [old.init]
    (left by an earlier failed download or by [create]) is reused by
    [mkdir(exist_ok=True)]: after a successful install the stale file is
    still there next to the new [main.init], whereas [install_local]
    removes an existing directory with [shutil.rmtree] before copying. *)
Theorem install_keeps_stale_files :
  let os : OS := os_refuse in
  let idx := JObj [("math", JObj [("version", JStr "2.0.0")])] in
  let net := fun u => if String.eqb u (main_url "math") then Some "init.log(2)" else None in
  let s0 := mkState default_config None (Some (Some idx))
              [("math", [("old.init", FText "stale")])] [] in
  exists s' files,
    install net (fun _ => None) "/home/u/.initlang/packages" 3 ["math"] s0 = Ok tt s' /\
    In "math" (installed_keys s') /\
    dir_get "math" (pkg_dirs s') = Some files /\
    In ("main.init", FText "init.log(2)") files /\
    In ("old.init", FText "stale") files.
Proof.
  intros os.
  do 2 eexists. split; [reflexivity|]. split; [simpl; tauto|].
  split; [reflexivity|]. simpl. tauto.
Qed.

(** ** C7: uninstall *)




(** ** C10: installing never removes an installed key *)

Create HintDb keeps.

Lemma keeps_ret {A} (a : A) : keeps_keys (ret a).
Proof. intros s. apply incl_refl. Qed.

Lemma keeps_raise {A} : keeps_keys (@raise A).
Proof. intros s. apply incl_refl. Qed.

Lemma keeps_bind {A B} (m : M A) (k : A -> M B) :
  keeps_keys m -> (forall a, keeps_keys (k a)) -> keeps_keys (bind m k).
Proof.
  intros Hm Hk s. specialize (Hm s). unfold bind.
  destruct (m s) as [a s1|s1]; simpl in *; [|exact Hm].
  eapply incl_tran; [exact Hm | apply Hk].
Qed.

Lemma keeps_try_except {A} (m h : M A) :
  keeps_keys m -> keeps_keys h -> keeps_keys (try_except m h).
Proof.
  intros Hm Hh s. specialize (Hm s). unfold try_except.
  destruct (m s) as [a s1|s1]; simpl in *; [exact Hm|].
  eapply incl_tran; [exact Hm | apply Hh].
Qed.

Lemma keeps_modify (f : state -> state) :
  (forall s, config (f s) = config s) -> keeps_keys (modify f).
Proof. intros Hf s. simpl. unfold installed_keys. rewrite Hf. apply incl_refl. Qed.

Lemma keeps_get_state : keeps_keys get_state.
Proof. intros s. apply incl_refl. Qed.

Lemma keeps_of_opt {A} (o : option A) : keeps_keys (of_opt o).
Proof. destruct o; [apply keeps_ret | apply keeps_raise]. Qed.

Lemma keeps_emit e : keeps_keys (emit e).
Proof. apply keeps_modify. reflexivity. Qed.

Lemma keeps_get_installed : keeps_keys get_installed.
Proof.
  intros s. unfold get_installed.
  destruct (dict_get _ _); apply incl_refl.
Qed.

Lemma keeps_in_installed name : keeps_keys (in_installed name).
Proof.
  apply keeps_bind; [apply keeps_get_installed | intros; apply keeps_of_opt].
Qed.

Lemma keeps_set_installed name e : keeps_keys (set_installed name e).
Proof.
  intros s. unfold set_installed, bind, get_installed.
  destruct (dict_get (config s) (KStr "installed_packages")) as [v|] eqn:E;
    [|apply incl_refl].
  destruct v; try apply incl_refl.
  unfold installed_keys. cbn [res_state modify config set_config].
  rewrite dict_get_set_same, E.
  intros x Hx. apply obj_keys_set. auto.
Qed.

Lemma keeps_os_call {os : OS} c : keeps_keys (os_call c).
Proof. intros s. unfold os_call. destruct (os_run c (fs_of s)) as [[|] f]; apply incl_refl. Qed.

Lemma keeps_write_file {os : OS} name f c : keeps_keys (write_file name f c).
Proof.
  unfold write_file. destruct (plain_name name); [|apply keeps_os_call].
  intros s. destruct (dir_get _ _); apply incl_refl.
Qed.

Lemma keeps_info_get info k d : keeps_keys (info_get info k d).
Proof. destruct info; try apply keeps_raise; apply keeps_ret. Qed.

Lemma keeps_save_config : keeps_keys save_config.
Proof. apply keeps_modify. reflexivity. Qed.

Lemma keeps_mkdir {os : OS} name : keeps_keys (mkdir_exist_ok name).
Proof.
  unfold mkdir_exist_ok. destruct (plain_name name); [|apply keeps_os_call].
  apply keeps_modify. reflexivity.
Qed.

Lemma keeps_rmtree {os : OS} name : keeps_keys (rmtree_if_exists name).
Proof.
  unfold rmtree_if_exists. destruct (plain_name name); [|apply keeps_os_call].
  apply keeps_modify. reflexivity.
Qed.

Lemma keeps_copytree {os : OS} name files ov : keeps_keys (copytree name files ov).
Proof.
  unfold copytree. destruct (plain_name name && negb ov); [|apply keeps_os_call].
  apply keeps_modify. reflexivity.
Qed.

#[local] Hint Resolve keeps_ret keeps_raise keeps_get_state keeps_of_opt keeps_emit
  keeps_get_installed keeps_in_installed keeps_set_installed keeps_write_file
  keeps_info_get keeps_save_config keeps_mkdir keeps_rmtree keeps_copytree : keeps.

Ltac keeps_step :=
  match goal with
  | |- keeps_keys (bind _ _) => apply keeps_bind
  | |- keeps_keys (try_except _ _) => apply keeps_try_except
  | |- keeps_keys (if ?b then _ else _) => destruct b
  | |- keeps_keys (match ?x with _ => _ end) => destruct x
  | |- forall _, _ => intro
  | |- keeps_keys ((fun _ => _) _) => cbv beta
  | |- _ => solve [auto with keeps]
  end.

Ltac solve_keeps := repeat keeps_step.

Lemma keeps_fetch net loads : keeps_keys (fetch_package_index net loads).
Proof.
  unfold fetch_package_index. solve_keeps.
Qed.

Lemma keeps_download {os : OS} net P name info : keeps_keys (download_package net P name info).
Proof. unfold download_package. solve_keeps. Qed.

#[local] Hint Resolve keeps_fetch keeps_download : keeps.

Lemma keeps_for_each_dep installing l :
  (forall d, keeps_keys (installing d)) -> keeps_keys (for_each_dep installing l).
Proof.
  intros Hi. induction l as [|d l IH]; simpl; [apply keeps_ret|].
  solve_keeps.
Qed.

Lemma keeps_install_deps installing info :
  (forall d, keeps_keys (installing d)) -> keeps_keys (install_deps installing info).
Proof.
  intros Hi. unfold install_deps. solve_keeps. apply keeps_for_each_dep, Hi.
Qed.

Lemma keeps_install_single {os : OS} net P f name index :
  keeps_keys (install_single net P f name index).
Proof.
  revert name. induction f as [|f IH]; intros name; simpl; [apply keeps_raise|].
  solve_keeps. apply keeps_install_deps. intros d. apply IH.
Qed.

#[local] Hint Resolve keeps_install_single : keeps.

Lemma keeps_install_each {os : OS} net P f index i total names :
  keeps_keys (install_each net P f index i total names).
Proof.
  revert i. induction names as [|n names IH]; intros i; simpl; [apply keeps_ret|].
  solve_keeps.
Qed.

#[local] Hint Resolve keeps_install_each : keeps.

(** C10: [_install_single] (with its recursion into the dependencies),
    [install] and [install_local] only add or replace keys of
    [installed_packages]: every key present before the call is present
    after it, whether the call returns or raises. *)
Theorem install_never_removes_keys {os : OS} :
  (forall net P f name index s,
     incl (installed_keys s) (installed_keys (res_state (install_single net P f name index s)))) /\
  (forall net loads P f names s,
     incl (installed_keys s) (installed_keys (res_state (install net loads P f names s)))) /\
  (forall P name files ov s,
     incl (installed_keys s) (installed_keys (res_state (install_local P name files ov s)))).
Proof.
  split; [|split].
  - intros. apply keeps_install_single.
  - intros net loads P f names.
    assert (H : keeps_keys (install net loads P f names)) by (unfold install; solve_keeps).
    exact H.
  - intros P name files ov.
    assert (H : keeps_keys (install_local P name files ov)) by (unfold install_local; solve_keeps).
    exact H.
Qed.

(** ** The other commands *)

(** *** Invariants of the commands *)

Section Stable.

Variable R : state -> state -> Prop.
Hypothesis R_refl : forall s, R s s.
Hypothesis R_trans : forall s1 s2 s3, R s1 s2 -> R s2 s3 -> R s1 s3.
Hypothesis R_out : forall s e, R s (add_out e s).
Hypothesis R_cache : forall s c, R s (set_cache_file c s).

Lemma stable_ret {A} (a : A) : stable_under R (ret a).
Proof. intros s. apply R_refl. Qed.

Lemma stable_raise {A} : stable_under R (@raise A).
Proof. intros s. apply R_refl. Qed.

Lemma stable_bind {A B} (m : M A) (k : A -> M B) :
  stable_under R m -> (forall a, stable_under R (k a)) -> stable_under R (bind m k).
Proof.
  intros Hm Hk s. specialize (Hm s). unfold bind.
  destruct (m s) as [a s1|s1]; simpl in *; [|exact Hm].
  eapply R_trans; [exact Hm | apply Hk].
Qed.

Lemma stable_try_except {A} (m h : M A) :
  stable_under R m -> stable_under R h -> stable_under R (try_except m h).
Proof.
  intros Hm Hh s. specialize (Hm s). unfold try_except.
  destruct (m s) as [a s1|s1]; simpl in *; [exact Hm|].
  eapply R_trans; [exact Hm | apply Hh].
Qed.

Lemma stable_get_state : stable_under R get_state.
Proof. intros s. apply R_refl. Qed.

Lemma stable_of_opt {A} (o : option A) : stable_under R (of_opt o).
Proof. destruct o; [apply stable_ret | apply stable_raise]. Qed.

Lemma stable_emit e : stable_under R (emit e).
Proof. intros s. apply R_out. Qed.

Lemma stable_set_cache c : stable_under R (modify (set_cache_file c)).
Proof. intros s. apply R_cache. Qed.

Lemma stable_get_installed : stable_under R get_installed.
Proof. intros s. unfold get_installed. destruct (dict_get _ _); apply R_refl. Qed.

Lemma stable_in_installed name : stable_under R (in_installed name).
Proof. apply stable_bind; [apply stable_get_installed | intros; apply stable_of_opt]. Qed.

Lemma stable_info_get i k d : stable_under R (info_get i k d).
Proof. destruct i; try apply stable_raise; apply stable_ret. Qed.

Create HintDb stable.
#[local] Hint Resolve stable_ret stable_raise stable_get_state stable_of_opt stable_emit
  stable_set_cache stable_get_installed stable_in_installed stable_info_get : stable.

Ltac stable_step :=
  match goal with
  | |- stable_under _ (bind _ _) => apply stable_bind
  | |- stable_under _ (try_except _ _) => apply stable_try_except
  | |- stable_under _ (if ?b then _ else _) => destruct b
  | |- stable_under _ (match ?x with _ => _ end) => destruct x
  | |- forall _, _ => intro
  | |- stable_under _ ((fun _ => _) _) => cbv beta
  | |- _ => solve [auto with stable]
  end.

Ltac solve_stable := repeat stable_step.

Lemma stable_for_each {A} (l : list A) body :
  (forall x, stable_under R (body x)) -> stable_under R (for_each l body).
Proof. intros Hb. induction l; simpl; solve_stable. Qed.

Lemma stable_filter_m {A} (p : A -> M bool) l :
  (forall x, stable_under R (p x)) -> stable_under R (filter_m p l).
Proof. intros Hp. induction l; simpl; solve_stable. Qed.

Lemma stable_fetch net loads : stable_under R (fetch_package_index net loads).
Proof. unfold fetch_package_index. solve_stable. Qed.

#[local] Hint Resolve stable_fetch : stable.

Lemma stable_show_entry kv : stable_under R (show_entry kv).
Proof. unfold show_entry. solve_stable. Qed.

Lemma stable_list_installed : stable_under R list_installed.
Proof. unfold list_installed. solve_stable. apply stable_for_each. solve_stable. Qed.

Lemma stable_list_available net loads : stable_under R (list_available net loads).
Proof. unfold list_available. solve_stable. apply stable_for_each, stable_show_entry. Qed.

Lemma stable_search net loads lower py_str q : stable_under R (search net loads lower py_str q).
Proof.
  unfold search. solve_stable.
  - apply stable_filter_m. intros x. unfold search_match. solve_stable.
  - apply stable_for_each, stable_show_entry.
Qed.

Lemma stable_info net loads name : stable_under R (info net loads name).
Proof. unfold info. solve_stable. Qed.

Lemma stable_update_index net loads : stable_under R (update_index net loads).
Proof. unfold update_index. solve_stable. Qed.


Section Stable_fs.

Hypothesis R_dirs : forall s d, R s (set_pkg_dirs d s).
Hypothesis R_save : forall s, R s (set_config_file (Some (config s)) s).
Hypothesis R_set_save : forall n e s s1,
  entry_ok e -> set_installed n e s = Ok tt s1 -> R s (set_config_file (Some (config s1)) s1).
Hypothesis R_del_save : forall n s s1,
  del_installed n s = Ok tt s1 -> R s (set_config_file (Some (config s1)) s1).

(** The names whose calls to the operating system keep [R]. *)
Variable ok_name : string -> Prop.
Hypothesis R_os : forall {os : OS} c s, ok_name (call_name c) -> R s (res_state (os_call c s)).

(** The names of the index entries that [_install_single] may pass on. *)
Definition index_ok (index : json) : Prop :=
  forall n i, py_getitem index n = Some i -> plain_name n = false -> ok_name n.

Lemma stable_os_call {os : OS} c : ok_name (call_name c) -> stable_under R (os_call c).
Proof. intros H s. apply R_os, H. Qed.

Lemma stable_write_file {os : OS} name f c :
  (plain_name name = false -> ok_name name) -> stable_under R (write_file name f c).
Proof.
  intros Hn. unfold write_file. destruct (plain_name name) eqn:E.
  - intros s. destruct (dir_get _ _); [apply R_dirs | apply R_refl].
  - apply stable_os_call, Hn; reflexivity.
Qed.

Lemma stable_mkdir {os : OS} name :
  (plain_name name = false -> ok_name name) -> stable_under R (mkdir_exist_ok name).
Proof.
  intros Hn. unfold mkdir_exist_ok. destruct (plain_name name) eqn:E.
  - intros s. apply R_dirs.
  - apply stable_os_call, Hn; reflexivity.
Qed.

Lemma stable_rmtree {os : OS} name :
  (plain_name name = false -> ok_name name) -> stable_under R (rmtree_if_exists name).
Proof.
  intros Hn. unfold rmtree_if_exists. destruct (plain_name name) eqn:E.
  - intros s. apply R_dirs.
  - apply stable_os_call, Hn; reflexivity.
Qed.

Lemma stable_copytree {os : OS} name files ov :
  ((plain_name name && negb ov) = false -> ok_name name) -> stable_under R (copytree name files ov).
Proof.
  intros Hn. unfold copytree. destruct (plain_name name && negb ov) eqn:E.
  - intros s. apply R_dirs.
  - apply stable_os_call, Hn; reflexivity.
Qed.

Lemma stable_path_exists {os : OS} name f : stable_under R (path_exists name f).
Proof. intros s. apply R_refl. Qed.

Lemma stable_save_config : stable_under R save_config.
Proof. intros s. apply R_save. Qed.

Lemma stable_bind_opt {A B} (o : option A) (k : A -> M B) :
  (forall a, o = Some a -> stable_under R (k a)) -> stable_under R (bind (of_opt o) k).
Proof. intros Hk s. destruct o as [a|]; [apply Hk; reflexivity | apply R_refl]. Qed.

Lemma stable_bind_at {A B} (m : M A) (k : A -> M B) s :
  R s (res_state (m s)) -> (forall a s', m s = Ok a s' -> R s' (res_state (k a s'))) ->
  R s (res_state (bind m k s)).
Proof.
  intros Hm Hk. unfold bind. destruct (m s) as [a s1|s1] eqn:E; simpl in *; [|exact Hm].
  eapply R_trans; [exact Hm | apply Hk; reflexivity].
Qed.

Lemma set_installed_Exc n e s s1 : set_installed n e s = Exc s1 -> s1 = s.
Proof.
  intros H. unfold set_installed, bind, get_installed in H.
  destruct (dict_get _ _) as [[]|]; inversion H; reflexivity.
Qed.

Lemma del_installed_Exc n s s1 : del_installed n s = Exc s1 -> s1 = s.
Proof.
  intros H. unfold del_installed, bind, get_installed in H.
  destruct (dict_get _ _) as [[]|]; try (inversion H; reflexivity).
  destruct (existsb (String.eqb n) (obj_keys o)); inversion H; reflexivity.
Qed.

Lemma stable_set_save {B} n e (k : M B) :
  entry_ok e -> stable_under R k -> stable_under R (set_installed n e ;; save_config ;; k).
Proof.
  intros He Hk s. unfold bind.
  destruct (set_installed n e s) as [[] s1|s1] eqn:E.
  - cbn [save_config modify]. eapply R_trans; [apply (R_set_save n e s s1 He E) | apply Hk].
  - apply set_installed_Exc in E. subst. apply R_refl.
Qed.

Lemma stable_del_save {B} n (k : M B) :
  stable_under R k -> stable_under R (del_installed n ;; save_config ;; k).
Proof.
  intros Hk s. unfold bind.
  destruct (del_installed n s) as [[] s1|s1] eqn:E.
  - cbn [save_config modify]. eapply R_trans; [apply (R_del_save n s s1 E) | apply Hk].
  - apply del_installed_Exc in E. subst. apply R_refl.
Qed.

#[local] Hint Resolve stable_write_file stable_mkdir stable_rmtree stable_copytree
  stable_path_exists stable_save_config stable_fetch : stable.

Ltac fs_step :=
  match goal with
  | |- stable_under _ (bind (set_installed _ _) (fun _ => bind save_config _)) =>
      apply stable_set_save; [eexists; split; [reflexivity | left; reflexivity] |]
  | |- stable_under _ (bind (del_installed _) (fun _ => bind save_config _)) =>
      apply stable_del_save
  | |- stable_under _ (bind (of_opt _) _) => apply stable_bind_opt
  | |- stable_under _ (bind _ _) => apply stable_bind
  | |- stable_under _ (try_except _ _) => apply stable_try_except
  | |- stable_under _ (if ?b then _ else _) => destruct b
  | |- stable_under _ (match ?x with _ => _ end) => destruct x
  | |- forall _, _ => intro
  | |- stable_under _ ((fun _ => _) _) => cbv beta
  | |- _ => solve [eauto with stable]
  end.

Ltac solve_fs := repeat fs_step.

Lemma stable_download {os : OS} net P name i :
  (plain_name name = false -> ok_name name) -> stable_under R (download_package net P name i).
Proof. intros Hn. unfold download_package. solve_fs. Qed.

#[local] Hint Resolve stable_download : stable.

Lemma stable_for_each_dep installing l :
  (forall d, stable_under R (installing d)) -> stable_under R (for_each_dep installing l).
Proof. intros Hi. induction l; simpl; solve_fs. Qed.

Lemma stable_install_deps installing i :
  (forall d, stable_under R (installing d)) -> stable_under R (install_deps installing i).
Proof. intros Hi. unfold install_deps. solve_fs. apply stable_for_each_dep, Hi. Qed.

Lemma stable_install_single {os : OS} net P f name index :
  index_ok index -> stable_under R (install_single net P f name index).
Proof.
  intros Hidx. revert name. induction f as [|f IH]; intros name; simpl; [apply stable_raise|].
  solve_fs. apply stable_install_deps. intros d. apply IH.
Qed.

#[local] Hint Resolve stable_install_single : stable.

Lemma stable_install_each {os : OS} net P f index i total names :
  index_ok index -> stable_under R (install_each net P f index i total names).
Proof. intros Hidx. revert i. induction names; intros i; simpl; solve_fs. Qed.

Lemma stable_install_at {os : OS} net loads P f names s :
  (forall v s', fetch_package_index net loads s = Ok v s' -> index_ok v) ->
  R s (res_state (install net loads P f names s)).
Proof.
  intros Hf. unfold install. apply stable_bind_at; [apply stable_fetch|].
  intros v s' E. specialize (Hf v s' E). clear E. revert s'.
  destruct (negb (truthy v)).
  - assert (H : stable_under R (emit EvCannotConnect ;; emit EvCheckConnection)) by solve_fs.
    exact H.
  - exact (stable_install_each net P f v 0 (length names) names Hf).
Qed.

Lemma stable_install_local {os : OS} P name files ov :
  ((plain_name name && negb ov) = false -> ok_name name) ->
  stable_under R (install_local P name files ov).
Proof.
  intros Hn. unfold install_local. solve_fs.
  apply stable_rmtree. intros E. apply Hn. rewrite E. reflexivity.
Qed.

Lemma stable_uninstall {os : OS} name :
  (plain_name name = false -> ok_name name) -> stable_under R (uninstall name).
Proof. intros Hn. unfold uninstall. solve_fs. Qed.

Lemma stable_uninstall_all {os : OS} names :
  Forall (fun n => plain_name n = false -> ok_name n) names -> stable_under R (uninstall_all names).
Proof.
  intros Hn. induction Hn as [|n names Hn _ IH]; simpl; [solve_fs|].
  apply stable_bind; [apply stable_uninstall, Hn | intros; exact IH].
Qed.

Lemma stable_create_package {os : OS} name version :
  (plain_name name = false -> ok_name name) -> stable_under R (create_package name version).
Proof. intros Hn. unfold create_package. solve_fs. Qed.

End Stable_fs.
End Stable.

Lemma os_call_config {os : OS} c s : config (res_state (os_call c s)) = config s.
Proof. unfold os_call. destruct (os_run c (fs_of s)) as [[|] f]; reflexivity. Qed.


Lemma index_ok_True index : index_ok (fun _ => True) index.
Proof. intros n i _ _. exact I. Qed.


Lemma same_files_refl s : same_files s s.
Proof. repeat split. Qed.

Lemma same_files_trans s1 s2 s3 : same_files s1 s2 -> same_files s2 s3 -> same_files s1 s3.
Proof. unfold same_files. intros (? & ? & ?) (? & ? & ?). repeat split; congruence. Qed.





Lemma entries_obj_set n e o :
  entry_ok e -> Forall (fun kv => entry_ok (snd kv)) o ->
  Forall (fun kv => entry_ok (snd kv)) (obj_set n e o).
Proof.
  intros He. induction o as [|[k v] o IH]; simpl; intros H.
  - constructor; [exact He | constructor].
  - inversion H; subst. destruct (String.eqb n k); constructor; auto.
Qed.

Lemma good_set_save n e s s1 :
  entry_ok e -> set_installed n e s = Ok tt s1 ->
  (good_installed s -> good_installed (set_config_file (Some (config s1)) s1)).
Proof.
  intros He H [o [Ho Hf]]. unfold set_installed, bind, get_installed in H.
  rewrite Ho in H. cbv [modify] in H. inversion H; subst. clear H.
  exists (obj_set n e o). cbn. split; [apply dict_get_set_same | apply entries_obj_set; assumption].
Qed.

Lemma good_del_save n s s1 :
  del_installed n s = Ok tt s1 ->
  (good_installed s -> good_installed (set_config_file (Some (config s1)) s1)).
Proof.
  intros H [o [Ho Hf]]. unfold del_installed, bind, get_installed in H.
  rewrite Ho in H. destruct (existsb _ _); cbv [modify raise] in H; inversion H; subst. clear H.
  exists (obj_del n o). cbn. split; [apply dict_get_set_same|].
  unfold obj_del. rewrite Forall_forall in *. intros x Hx.
  apply filter_In in Hx. apply Hf, Hx.
Qed.

Lemma good_frame s s' :
  config s' = config s -> good_installed s -> good_installed s'.
Proof. unfold good_installed. intros ->. auto. Qed.


(** [list_installed], [list_available], [search], [info] and
    [update_index] never change [self.config], [packages.json] or the
    package directories, whether they return or raise. *)
Theorem read_only_commands_keep_state :
  (forall s, same_files s (res_state (list_installed s))) /\
  (forall net loads s, same_files s (res_state (list_available net loads s))) /\
  (forall net loads lower py_str q s,
     same_files s (res_state (search net loads lower py_str q s))) /\
  (forall net loads name s, same_files s (res_state (info net loads name s))) /\
  (forall net loads s, same_files s (res_state (update_index net loads s))).
Proof.
  refine (conj _ (conj _ (conj _ (conj _ _)))); intros;
    match goal with |- same_files ?s (res_state (?m ?s)) => revert s; change (stable_under same_files m) end;
    first [ apply stable_list_installed | apply stable_list_available | apply stable_search
          | apply stable_info | apply stable_update_index ];
    first [ exact same_files_refl | exact same_files_trans | intros; repeat split ].
Qed.


Ltac good_side :=
  cbv beta;
  solve [ exact good_set_save | exact good_del_save
        | intros ? h; exact h
        | intros ? ? ? H1 H2 h; exact (H2 (H1 h))
        | intros ? ? ? _ h; eapply good_frame; [apply os_call_config | exact h]
        | intros; eapply good_frame; [reflexivity | eassumption] ].




Lemma obj_get_In o k : obj_get o k <> None <-> In k (obj_keys o).
Proof.
  induction o as [|[k' v] o IH]; simpl; [tauto|].
  destruct (String.eqb_spec k k'); subst.
  - split; [left; reflexivity | discriminate].
  - rewrite IH. split; [auto | intros [H|H]; [congruence | exact H]].
Qed.

Lemma for_each_listed_Ok o s :
  (exists s', for_each o (fun kv =>
     src <- info_get (snd kv) "source" (JStr "inconnu") ;;
     ver <- of_opt (py_getitem (snd kv) "version") ;;
     emit (EvListedInstalled (fst kv) ver src)) s = Ok tt s')
  <-> Forall (fun kv => entry_ok (snd kv)) o.
Proof.
  revert s. induction o as [|[k v] o IH]; intros s; simpl.
  - split; [constructor | eexists; reflexivity].
  - rewrite Forall_cons_iff. cbv [bind info_get ret raise of_opt emit modify].
    destruct v as [| | | | |e]; cbn [snd py_getitem];
      try (split; [intros [? H]; discriminate H | intros [[? [H _]] _]; discriminate H]).
    destruct (obj_get e "version") as [ver|] eqn:E.
    + rewrite IH. split; [intros H; split; [|exact H] | intros [_ H]; exact H].
      exists e. split; [reflexivity|]. apply obj_get_In. congruence.
    + split; [intros [? H]; discriminate H|].
      intros [[e' [He Hin]] _]. injection He as <-. apply obj_get_In in Hin. contradiction.
Qed.

Lemma list_installed_Ok s o :
  dict_get (config s) (KStr "installed_packages") = Some (JObj o) ->
  ((exists s', list_installed s = Ok tt s') <-> Forall (fun kv => entry_ok (snd kv)) o).
Proof.
  intros H. unfold list_installed. rewrite (bind_Ok _ _ _ _ _ (ltac:(unfold get_installed; rewrite H; reflexivity) : get_installed s = Ok (JObj o) s)).
  destruct o as [|kv o]; cbn [truthy length negb Nat.eqb].
  - split; [constructor | eexists; reflexivity].
  - cbv [bind emit modify of_opt py_items ret]. apply for_each_listed_Ok.
Qed.

(** [list_installed] on a dict [installed_packages] returns normally
    exactly when every entry is a dict with a ["version"] key; otherwise
    it raises ([KeyError] or [AttributeError]). *)
Theorem list_installed_returns_iff_well_formed s o :
  dict_get (config s) (KStr "installed_packages") = Some (JObj o) ->
  ((exists s', list_installed s = Ok tt s') <-> Forall (fun kv => entry_ok (snd kv)) o).
Proof. apply list_installed_Ok. Qed.

(** When every entry of [installed_packages] is a dict with a
    ["version"] key, the mutating commands keep it so (whether they
    return or raise), and [list_installed] then returns normally. *)
Theorem installed_entries_stay_well_formed {os : OS} :
  (forall net P f name index s,
     good_installed s -> good_installed (res_state (install_single net P f name index s))) /\
  (forall net loads P f names s,
     good_installed s -> good_installed (res_state (install net loads P f names s))) /\
  (forall P name files ov s,
     good_installed s -> good_installed (res_state (install_local P name files ov s))) /\
  (forall names s, good_installed s -> good_installed (res_state (uninstall_all names s))) /\
  (forall name version s,
     good_installed s -> good_installed (res_state (create_package name version s))) /\
  (forall s, good_installed s -> exists s', list_installed s = Ok tt s').
Proof.
  refine (conj _ (conj _ (conj _ (conj _ (conj _ _))))).
  6:{ intros s [o [Ho Hf]]. apply (list_installed_Ok s o Ho). exact Hf. }
  - intros net P f name index.
    change (stable_under (fun s s' => good_installed s -> good_installed s')
              (install_single net P f name index)).
    eapply stable_install_single with (ok_name := fun _ => True); try good_side.
    apply index_ok_True.
  - intros net loads P f names s.
    change ((fun s s' => good_installed s -> good_installed s')
              s (res_state (install net loads P f names s))).
    eapply stable_install_at with (ok_name := fun _ => True); try good_side.
    intros. apply index_ok_True.
  - intros P name files ov.
    change (stable_under (fun s s' => good_installed s -> good_installed s')
              (install_local P name files ov)).
    eapply stable_install_local with (ok_name := fun _ => True); try good_side.
    intros. exact I.
  - intros names.
    change (stable_under (fun s s' => good_installed s -> good_installed s')
              (uninstall_all names)).
    eapply stable_uninstall_all with (ok_name := fun _ => True); try good_side.
    apply Forall_forall. intros. exact I.
  - intros name version.
    change (stable_under (fun s s' => good_installed s -> good_installed s')
              (create_package name version)).
    eapply stable_create_package with (ok_name := fun _ => True); try good_side.
    intros. exact I.
Qed.

Lemma list_installed_returns_iff_well_formed_witness :
  let s0 := st_with_installed [("a", JStr "1.0.0")] in
  ~ exists s', list_installed s0 = Ok tt s'.
Proof.
  intros s0 H.
  apply (list_installed_returns_iff_well_formed s0 [("a", JStr "1.0.0")] eq_refl) in H.
  inversion H as [|x l Hx Hl]. destruct Hx as [o [E _]]. discriminate.
Defined.

Lemma installed_entries_stay_well_formed_witness :
  let os : OS := os_refuse in
  let net := fun u => if String.eqb u (main_url "m") then Some "init.log(1)" else None in
  let s0 := st_with_installed [("a", JObj [("version", JStr "1.0.0")])] in
  good_installed s0 /\
  good_installed (res_state (install_single net "/home/u/.initlang/packages" 3 "m"
                               (JObj [("m", JObj [("version", JStr "1.0.0")])]) s0)) /\
  exists s', list_installed s0 = Ok tt s'.
Proof.
  intros os.
  intros net s0.
  assert (Hg : good_installed s0).
  { eexists. split; [reflexivity|]. repeat constructor. eexists. split; [reflexivity | simpl; tauto]. }
  split; [exact Hg|]. split.
  - exact (proj1 installed_entries_stay_well_formed net _ _ _ _ s0 Hg).
  - exact (proj2 (proj2 (proj2 (proj2 (proj2 installed_entries_stay_well_formed)))) s0 Hg).
Defined.




































Lemma existsb_obj_get k o :
  existsb (String.eqb k) (obj_keys o) = match obj_get o k with Some _ => true | None => false end.
Proof.
  induction o as [|[k' v] o IH]; simpl; [reflexivity|].
  destruct (String.eqb k k'); [reflexivity | exact IH].
Qed.





Lemma filter_m_all {A} (p : A -> M bool) l s :
  (forall x, In x l -> p x s = Ok true s) -> filter_m p l s = Ok l s.
Proof.
  induction l as [|x l IH]; intros H; simpl; [reflexivity|].
  unfold bind. rewrite (H x (or_introl eq_refl)). rewrite IH by (intros y Hy; apply H; right; exact Hy).
  reflexivity.
Qed.

Lemma show_entry_run o k ia ver s :
  dict_get (config s) (KStr "installed_packages") = Some (JObj o) ->
  obj_get ia "version" = Some ver ->
  show_entry (k, JObj ia) s =
  Ok tt (add_out (EvListedAvailable (existsb (String.eqb k) (obj_keys o)) k ver
                   (obj_get_or ia "description" (JStr ""))) s).
Proof.
  intros Hcfg Ev. unfold show_entry. cbn [fst snd].
  rewrite (bind_Ok _ _ _ _ _ (in_installed_obj _ _ k Hcfg)).
  cbv [bind of_opt py_getitem info_get ret emit modify]. rewrite Ev. reflexivity.
Qed.

Lemma for_each_show_entry o l : forall s,
  dict_get (config s) (KStr "installed_packages") = Some (JObj o) ->
  Forall (fun kv => exists ia, snd kv = JObj ia /\ In "version" (obj_keys ia)) l ->
  exists s' evs, for_each l show_entry s = Ok tt s' /\ out s' = (out s ++ evs)%list /\
    listed_names evs = map fst l /\ config s' = config s.
Proof.
  induction l as [|[k v] l IH]; intros s Hcfg Hl; simpl.
  - exists s, []. rewrite app_nil_r. repeat split.
  - inversion Hl as [|? ? [ia [Hv Hver]] Hl']; subst. cbn [snd] in Hv. subst v.
    apply obj_get_In in Hver. destruct (obj_get ia "version") as [ver|] eqn:Ev; [|congruence].
    rewrite (bind_Ok _ _ _ _ _ (show_entry_run _ _ _ _ _ Hcfg Ev)).
    destruct (IH (add_out (EvListedAvailable (existsb (String.eqb k) (obj_keys o)) k ver
                   (obj_get_or ia "description" (JStr ""))) s) Hcfg Hl')
      as [s' [evs [E [Ho [Hn Hc]]]]].
    rewrite E.
    exists s', (EvListedAvailable (existsb (String.eqb k) (obj_keys o)) k ver
                  (obj_get_or ia "description" (JStr "")) :: evs).
    split; [reflexivity|]. rewrite Ho. cbn [out add_out]. rewrite <- app_assoc.
    split; [reflexivity|]. split; [unfold listed_names in *; cbn; rewrite Hn; reflexivity | exact Hc].
Qed.

Lemma index_empty_prefix t : String.index 0 EmptyString t = Some 0.
Proof. destruct t; reflexivity. Qed.

(** [search] with an empty index (what a failed fetch gives) reports no
    results, not a connection error; with a query whose lowercase is empty,
    every package of a non-empty dict index is listed, in index order,
    provided each entry is a dict with a version and joinable keywords. *)
Theorem search_empty_index_or_query net loads lower py_str q s s1 :
  (fetch_package_index net loads s = Ok (JObj []) s1 ->
     search net loads lower py_str q s = Ok tt (add_out (EvNoResults q) s1)) /\
  (forall io o, fetch_package_index net loads s = Ok (JObj io) s1 ->
     lower q = EmptyString -> io <> [] ->
     dict_get (config s) (KStr "installed_packages") = Some (JObj o) ->
     Forall (fun kv => exists ia, snd kv = JObj ia /\ In "version" (obj_keys ia) /\
                        join_items (obj_get_or ia "keywords" (JArr [])) <> None) io ->
     exists s' evs, search net loads lower py_str q s = Ok tt s' /\
       out s' = (out s1 ++ EvResultsHeader q :: evs)%list /\ listed_names evs = obj_keys io).
Proof.
  split.
  - intros Hf. unfold search. rewrite (bind_Ok _ _ _ _ _ Hf). reflexivity.
  - intros io o Hf Hq Hne Hcfg Hall. pose proof (fetch_frame_eq _ _ _ _ _ Hf) as [Hc _].
    unfold search. rewrite (bind_Ok _ _ _ _ _ Hf). cbv [bind of_opt py_items ret].
    rewrite filter_m_all.
    2:{ intros [k v] Hin. rewrite Forall_forall in Hall.
        destruct (Hall _ Hin) as [ia [Hv [_ Hj]]]. cbn [snd] in Hv. subst v.
        unfold search_match. cbv [bind info_get ret of_opt]. cbn [snd fst].
        destruct (join_items (obj_get_or ia "keywords" (JArr []))) as [ks|]; [|congruence].
        cbn [py_in]. rewrite Hq, index_empty_prefix. reflexivity. }
    destruct io as [|kv io']; [congruence|].
    destruct (for_each_show_entry o (kv :: io') (add_out (EvResultsHeader q) s1))
      as [s' [evs [E [Ho [Hn _]]]]].
    + cbn [config add_out]. rewrite Hc. exact Hcfg.
    + eapply Forall_impl; [|exact Hall]. intros x [ia [H1 [H2 _]]]. exists ia. auto.
    + cbv [bind emit modify] in *. rewrite E. exists s', evs. split; [reflexivity|].
      rewrite Ho. cbn [out add_out]. rewrite <- app_assoc. split; [reflexivity | exact Hn].
Qed.

Lemma search_empty_index_or_query_witness :
  let s0 := st_with_installed [] in
  exists s1, search (fun _ => None) (fun _ => None) (fun s => s) (fun _ => EmptyString) "math" s0
             = Ok tt (add_out (EvNoResults "math") s1).
Proof.
  intros s0. eexists.
  apply (proj1 (search_empty_index_or_query (fun _ => None) (fun _ => None) (fun s => s)
                  (fun _ => EmptyString) "math" s0 _)).
  reflexivity.
Defined.

(** [main] never lets an exception out (the [try/except Exception] of
    the dispatch); a command that needs arguments and gets none only prints
    its error after loading the configuration; an unknown command prints
    an error and the help. *)
Theorem main_catches_everything {os : OS} net loads P lower py_str rs fuel cfg :
  (forall command args s,
     exists s', main net loads P lower py_str rs fuel cfg command args s = Ok tt s') /\
  (forall c s, In c ["install"; "uninstall"; "create"; "install-local"; "search"; "info"] ->
     main net loads P lower py_str rs fuel cfg (Some c) [] s
     = Ok tt (add_out (EvMissingArgument c) (set_config (load_config cfg) s))) /\
  (forall c args s,
     ~ In c [""; "-h"; "--help"; "install"; "uninstall"; "create"; "install-local"; "list";
             "available"; "search"; "info"; "update"] ->
     main net loads P lower py_str rs fuel cfg (Some c) args s
     = Ok tt (add_out EvHelp (add_out (EvUnknownCommand c) (set_config (load_config cfg) s)))).
Proof.
  split; [|split].
  - intros command args s. unfold main. cbv [bind modify].
    destruct command as [c|]; [|eexists; reflexivity].
    destruct (_ || _)%bool; [eexists; reflexivity|].
    unfold try_except. destruct (run_command _ _ _ _ _ _ _ _ _ _) as [[] ?|?]; eexists; reflexivity.
  - intros c s Hc. simpl in Hc.
    repeat (destruct Hc as [<-|Hc]; [reflexivity|]). contradiction.
  - intros c args s Hc. cbv [main bind modify try_except run_command].
    repeat match goal with
           | |- context [String.eqb c ?x] =>
               destruct (String.eqb_spec c x) as [->|]; [exfalso; apply Hc; simpl; tauto|]
           end.
    reflexivity.
Qed.

Lemma main_catches_everything_witness :
  let os : OS := os_refuse in
  let s0 := st_with_installed [] in
  main (fun _ => None) (fun _ => None) "/home/u/.initlang/packages" (fun s => s)
    (fun _ => EmptyString) (fun p => (p, [], false)) 3 None (Some "install") [] s0
  = Ok tt (add_out (EvMissingArgument "install") (set_config (load_config None) s0)) /\
  main (fun _ => None) (fun _ => None) "/home/u/.initlang/packages" (fun s => s)
    (fun _ => EmptyString) (fun p => (p, [], false)) 3 None (Some "frobnicate") ["x"] s0
  = Ok tt (add_out EvHelp (add_out (EvUnknownCommand "frobnicate") (set_config (load_config None) s0))).
Proof.
  intros os.
  intros s0. split.
  - apply (proj1 (proj2 (main_catches_everything (fun _ => None) (fun _ => None)
             "/home/u/.initlang/packages" (fun s => s) (fun _ => EmptyString) (fun p => (p, [], false)) 3 None))).
    simpl. tauto.
  - apply (proj2 (proj2 (main_catches_everything (fun _ => None) (fun _ => None)
             "/home/u/.initlang/packages" (fun s => s) (fun _ => EmptyString) (fun p => (p, [], false)) 3 None))).
    simpl. intuition discriminate.
Defined.

(** A requested name whose index entry is not a dict is not installed:
    [download_package] raises on [package_info.get] before creating any
    directory and reports the failure, and [_install_single] reports it;
    nothing else changes. *)
Theorem malformed_entry_not_installed {os : OS} net P f name io v o s :
  dict_get (config s) (KStr "installed_packages") = Some (JObj o) ->
  ~ In name (obj_keys o) ->
  obj_get io name = Some v ->
  (forall ia, v <> JObj ia) ->
  install_single net P (S f) name (JObj io) s
  = Ok tt (add_out (EvFailedToInstall name) (add_out (EvInstallFailure name) s)).
Proof.
  intros Hcfg Hn Hi Hv. simpl.
  rewrite (bind_Ok _ _ _ _ _ (in_installed_obj _ _ name Hcfg)).
  rewrite (existsb_eqb_notIn _ _ Hn).
  cbv [bind of_opt py_in py_getitem ret]. rewrite existsb_obj_get, Hi. cbn [negb].
  unfold download_package, try_except, info_get.
  destruct v as [| | | | |ia]; try (exfalso; apply (Hv ia); reflexivity); reflexivity.
Qed.

Lemma malformed_entry_not_installed_witness :
  let os : OS := os_refuse in
  let s0 := st_with_installed [] in
  install_single (fun _ => Some "init.log(1)") "/home/u/.initlang/packages" 3 "m"
    (JObj [("m", JStr "1.0.0")]) s0
  = Ok tt (add_out (EvFailedToInstall "m") (add_out (EvInstallFailure "m") s0)).
Proof.
  intros os.
  intros s0.
  apply (malformed_entry_not_installed (fun _ => Some "init.log(1)") "/home/u/.initlang/packages" 2
           "m" [("m", JStr "1.0.0")] (JStr "1.0.0") [] s0);
    [reflexivity | simpl; tauto | reflexivity | intros ia; discriminate].
Defined.

Lemma dict_set_keys k v d k' :
  dict_get d k' <> None -> dict_get (dict_set k v d) k' <> None.
Proof.
  induction d as [|[k0 v0] d IH]; cbn [dict_get dict_set]; [congruence|].
  destruct (pykey_eqb k k0); cbn [dict_get]; destruct (pykey_eqb k' k0); auto; discriminate.
Qed.

Lemma update_seq_keys l d k :
  dict_get d k <> None ->
  match update_seq d l with UOk d' | URaise d' => dict_get d' k <> None end.
Proof.
  revert d. induction l as [|e l IH]; intros d H; simpl; [exact H|].
  destruct (pair_of_elem e) as [[k1 v1]|]; [apply IH, dict_set_keys, H | exact H].
Qed.

(** Whatever [packages.json] holds, the loaded configuration has the keys
    ["repository"] and ["installed_packages"]: [dict.update] only adds or
    replaces keys, even when it raises part way. *)
Theorem load_config_has_default_keys src :
  dict_get (load_config src) (KStr "repository") <> None /\
  dict_get (load_config src) (KStr "installed_packages") <> None.
Proof.
  assert (Hgen : forall k, dict_get default_config k <> None ->
                 dict_get (load_config src) k <> None).
  { intros k Hk. destruct src as [[v|]|]; cbn [load_config]; try exact Hk.
    destruct v; cbn [dict_update]; try exact Hk.
    - pose proof (update_seq_keys (map (fun c => JStr (char_str c)) (list_ascii_of_string s))
                    default_config k Hk) as H.
      destruct (update_seq _ _); exact H.
    - pose proof (update_seq_keys l default_config k Hk) as H.
      destruct (update_seq _ _); exact H.
    - revert Hk. generalize default_config. induction o as [|kv o IH]; intros d Hd; simpl;
        [exact Hd|]. apply IH, dict_set_keys, Hd. }
  split; apply Hgen; discriminate.
Qed.
